(** * inletsctl: the AWS provisioner (package provision)

    A shallow embedding of [pkg/provision/aws.go] and of the earlier revision
    of the same file, with the properties of image resolution, network
    bootstrap, ingress rules and status normalisation that the specification
    states about them.

    Layout: the Go run time the code leans on (results, panics, strconv,
    sort, time), the EC2 SDK shapes the code builds and reads, the client as
    a state-passing interface with a call log, the two source files as
    modules [Aws] and [Part000], fixtures, and then the theorems. *)

From stdpp Require Import gmap strings.
From Stdlib Require Import ZArith Lia Ascii String List Sorted Permutation.
Import ListNotations.

Local Open Scope string_scope.
Local Open Scope list_scope.
Local Open Scope Z_scope.

(** ** Go run time *)

(** A nil dereference and an out-of-range index are run-time panics in Go:
    they unwind the caller instead of coming back as an [error] value. *)
Inductive panic : Type :=
| IndexOutOfRange (index length : nat)
| NilDereference.

(** The sentinel errors of package strconv. *)
Inductive strconv_err : Type := ErrSyntax | ErrRange.

(** The [error] values that travel through this package: whatever the SDK
    hands back (an opaque awserr, kept by its code) and strconv's NumError. *)
Inductive error : Type :=
| AwsError (code : string)
| NumError (Func Num : string) (Err : strconv_err).

(** What a Go call that returns [(T, error)] can do: return a value with a nil
    error, return a non-nil error, or panic. *)
Inductive outcome (A : Type) : Type :=
| Ret (a : A)
| Err (e : error)
| Panic (p : panic).
Arguments Ret {A} a.
Arguments Err {A} e.
Arguments Panic {A} p.

Class Monad (m : Type -> Type) : Type := {
  ret : forall {A}, A -> m A;
  bind : forall {A B}, m A -> (A -> m B) -> m B
}.

Notation "x <- c1 ;; c2" := (bind c1 (fun x => c2))
  (at level 20, c1 at level 99, c2 at level 200, only parsing).

#[global] Instance outcome_monad : Monad outcome := {|
  ret := fun A a => Ret a;
  bind := fun A B c k =>
    match c with
    | Ret a => k a
    | Err e => Err e
    | Panic p => Panic p
    end
|}.

(** [*p] for a pointer-typed SDK field. *)
Definition deref {A : Type} (p : option A) : outcome A :=
  match p with
  | Some a => Ret a
  | None => Panic NilDereference
  end.

(** [xs[i]] on a slice. *)
Definition index {A : Type} (xs : list A) (i : nat) : outcome A :=
  match nth_error xs i with
  | Some a => Ret a
  | None => Panic (IndexOutOfRange i (length xs))
  end.

(** [m[k]] on a [map[string]string]: a missing key reads as the zero value. *)
Definition map_index (m : gmap string string) (k : string) : string :=
  default "" (m !! k).

(** *** strconv.ParseInt(s, 10, 64) *)

Definition maxUint64 : Z := 2 ^ 64 - 1.

Definition is_digit (c : ascii) : bool :=
  (48 <=? Z.of_N (N_of_ascii c)) && (Z.of_N (N_of_ascii c) <=? 57).

(** The digit loop of strconv.ParseUint for base 10 and bit size 64, with its
    two overflow tests on the unsigned 64-bit accumulator. *)
Fixpoint ParseUint_loop (s : string) (n : Z) : strconv_err + Z :=
  match s with
  | EmptyString => inr n
  | String c rest =>
      if is_digit c then
        let d := Z.of_N (N_of_ascii c) - 48 in
        if maxUint64 / 10 + 1 <=? n then inl ErrRange
        else
          let n10 := n * 10 in
          let n1 := (n10 + d) mod 2 ^ 64 in
          if (n1 <? n10) || (maxUint64 <? n1) then inl ErrRange
          else ParseUint_loop rest n1
      else inl ErrSyntax
  end.

Definition ParseUint (s : string) : strconv_err + Z :=
  match s with
  | EmptyString => inl ErrSyntax
  | _ => ParseUint_loop s 0
  end.

(** The result is an int64, as a [Z] within range. *)
Definition ParseInt (s : string) : error + Z :=
  match s with
  | EmptyString => inl (NumError "ParseInt" s ErrSyntax)
  | String c rest =>
      let neg := Ascii.eqb c "-" in
      let digits := if Ascii.eqb c "+" || neg then rest else s in
      let cutoff := 2 ^ 63 in
      match ParseUint digits with
      | inl ErrSyntax => inl (NumError "ParseInt" s ErrSyntax)
      | inl ErrRange => inl (NumError "ParseInt" s ErrRange)
      | inr un =>
          if negb neg && (cutoff <=? un) then inl (NumError "ParseInt" s ErrRange)
          else if neg && (cutoff <? un) then inl (NumError "ParseInt" s ErrRange)
          else inr (if neg then - un else un)
      end
  end.

(** *** time *)

(** A [time.Time] is used here through [After] alone, which compares
    instants; a time is modelled by its instant on the integer time line. *)
Definition Time : Type := Z.

Definition After (t u : Time) : bool := u <? t.

(** *** sort.Slice *)

(** [less] orders as sort.Slice requires: nothing is less than itself, and
    [less] and its complement are both transitive. *)
Definition strict_weak_order {A : Type} (less : A -> A -> bool) : Prop :=
  (forall a, less a a = false) /\
  (forall a b c, less a b = true -> less b c = true -> less a c = true) /\
  (forall a b c, less a b = false -> less b c = false -> less a c = false).

(** sort.Slice by its contract: the slice is rearranged, no element is lost
    or invented, afterwards no later element is [less] than an earlier one,
    and the order among equal elements is left open (the sort is not
    stable). *)
Class SliceSorter : Type := {
  sort_Slice : forall {A : Type}, (A -> A -> bool) -> list A -> list A;
  sort_Slice_Permutation :
    forall (A : Type) (less : A -> A -> bool) (xs : list A),
      Permutation xs (sort_Slice less xs);
  sort_Slice_Sorted :
    forall (A : Type) (less : A -> A -> bool) (xs : list A),
      strict_weak_order less ->
      StronglySorted (fun a b => less b a = false) (sort_Slice less xs)
}.

(** ** The EC2 SDK shapes the code builds and reads

    Request fields are filled from [aws.String] and [aws.Int64] and are never
    nil; they are plain values.  Response fields are pointers the service may
    leave unset: an [option], read through [deref].  The elements of a
    response slice are allocated by the SDK as it appends them and are plain
    values.

    Field names are the SDK's.  Where two shapes share one, the second is
    told apart: [GroupVpcId] (CreateSecurityGroupInput.VpcId),
    [IngressGroupId] (AuthorizeSecurityGroupIngressInput.GroupId),
    [RunImageId] (RunInstancesInput.ImageId), [StateName]
    (InstanceState.Name), [CreatedVpc] (CreateDefaultVpcOutput.Vpc),
    [TerminateIds] (TerminateInstancesInput.InstanceIds); likewise
    [HostName] and [HostUserData] of BasicHost and [ami_ID] and
    [ami_CreationDate] of ami. *)

Record Filter : Type := { Name : string; Values : list string }.

Record DescribeImagesInput : Type := { Filters : list Filter }.

Record Image : Type := {
  ImageId : option string;
  CreationDate : option string
}.

Record DescribeImagesOutput : Type := { Images : list Image }.

Record Vpc : Type := { IsDefault : option bool; VpcId : option string }.

Record DescribeVpcsOutput : Type := { Vpcs : list Vpc }.

Record CreateDefaultVpcOutput : Type := { CreatedVpc : option Vpc }.

Record CreateSecurityGroupInput : Type := {
  Description : string;
  GroupName : string;
  GroupVpcId : string
}.

Record CreateSecurityGroupOutput : Type := { GroupId : option string }.

Record IpRange : Type := { CidrIp : string }.

Record IpPermission : Type := {
  IpProtocol : string;
  FromPort : Z;
  ToPort : Z;
  IpRanges : list IpRange
}.

(** [GroupId] is handed on as the pointer it came back as. *)
Record AuthorizeSecurityGroupIngressInput : Type := {
  IngressGroupId : option string;
  IpPermissions : list IpPermission
}.

Record EbsBlockDevice : Type := { VolumeSize : Z }.

Record BlockDeviceMapping : Type := { DeviceName : string; Ebs : EbsBlockDevice }.

Record Tag : Type := { Key : string; Value : string }.

Record TagSpecification : Type := { ResourceType : string; Tags : list Tag }.

Record RunInstancesInput : Type := {
  RunImageId : string;
  InstanceType : string;
  MinCount : Z;
  MaxCount : Z;
  UserData : string;
  SecurityGroupIds : list string;
  BlockDeviceMappings : list BlockDeviceMapping;
  TagSpecifications : list TagSpecification
}.

Record InstanceState : Type := { StateName : option string }.

Record Instance : Type := {
  InstanceId : option string;
  PublicIpAddress : option string;
  State : option InstanceState
}.

Record Reservation : Type := { Instances : list Instance }.

Record DescribeInstancesInput : Type := { InstanceIds : list string }.

Record DescribeInstancesOutput : Type := { Reservations : list Reservation }.

Record TerminateInstancesInput : Type := { TerminateIds : list string }.

(** One request sent to the service. *)
Inductive Call : Type :=
| CallDescribeImages (input : DescribeImagesInput)
| CallDescribeVpcs
| CallCreateDefaultVpc
| CallCreateSecurityGroup (input : CreateSecurityGroupInput)
| CallAuthorizeSecurityGroupIngress (input : AuthorizeSecurityGroupIngressInput)
| CallRunInstances (input : RunInstancesInput)
| CallDescribeInstances (input : DescribeInstancesInput)
| CallTerminateInstances (input : TerminateInstancesInput).

(** The service behind [*ec2.EC2], over a state [W] of its own: each
    operation answers with a result or an error and moves the state. *)
Record EC2 (W : Type) : Type := {
  DescribeImages : DescribeImagesInput -> W -> (error + DescribeImagesOutput) * W;
  DescribeVpcs : unit -> W -> (error + DescribeVpcsOutput) * W;
  CreateDefaultVpc : unit -> W -> (error + CreateDefaultVpcOutput) * W;
  CreateSecurityGroup :
    CreateSecurityGroupInput -> W -> (error + CreateSecurityGroupOutput) * W;
  AuthorizeSecurityGroupIngress :
    AuthorizeSecurityGroupIngressInput -> W -> (error + unit) * W;
  RunInstances : RunInstancesInput -> W -> (error + Reservation) * W;
  DescribeInstances :
    DescribeInstancesInput -> W -> (error + DescribeInstancesOutput) * W;
  TerminateInstances : TerminateInstancesInput -> W -> (error + unit) * W
}.
Arguments DescribeImages {W}.
Arguments DescribeVpcs {W}.
Arguments CreateDefaultVpc {W}.
Arguments CreateSecurityGroup {W}.
Arguments AuthorizeSecurityGroupIngress {W}.
Arguments RunInstances {W}.
Arguments DescribeInstances {W}.
Arguments TerminateInstances {W}.

(** The world a method runs in: the service's state and the requests sent so
    far, oldest first. *)
Record St (W : Type) : Type := { world : W; trace : list Call }.
Arguments world {W}.
Arguments trace {W}.

(** A method of the provisioner: state in, outcome and state out. *)
Definition M (W A : Type) : Type := St W -> outcome A * St W.

#[global] Instance M_monad (W : Type) : Monad (M W) := {|
  ret := fun A a s => (Ret a, s);
  bind := fun A B c k s =>
    match c s with
    | (Ret a, s') => k a s'
    | (Err e, s') => (Err e, s')
    | (Panic p, s') => (Panic p, s')
    end
|}.

(** A step that cannot reach the service. *)
Definition pure {W A : Type} (c : outcome A) : M W A := fun s => (c, s).

(** [out, err := p.client.Op(input)]: the request is logged, the service
    moves, and the pair comes back as a value. *)
Definition request {W In Out : Type}
    (op : In -> W -> (error + Out) * W) (tag : In -> Call) (input : In)
  : M W (error + Out) :=
  fun s =>
    let (r, w) := op input (world s) in
    (Ret r, {| world := w; trace := trace s ++ [tag input] |}).

(** [if err != nil { return zero, err }]. *)
Definition orReturn {W A : Type} (r : error + A) : M W A :=
  match r with
  | inl e => fun s => (Err e, s)
  | inr a => ret a
  end.

(** ** Package provision: the types declared beside the two sources *)

(** Modelled from the spec: the Host Request, declared outside the two source
    files; the fields are the ones [Provision] reads. *)
Record BasicHost : Type := {
  HostName : string;
  OS : string;
  Plan : string;
  HostUserData : string;
  Additional : gmap string string
}.

(** Modelled from the spec: the Provisioned Host, declared outside the two
    source files; the fields are the ones [reservationToPrivionedHost] sets. *)
Record ProvisionedHost : Type := { ID : string; IP : string; Status : string }.

Record AWSProvisioner (W : Type) : Type := { client : EC2 W }.
Arguments client {W}.

Record ami : Type := { ami_ID : string; ami_CreationDate : Time }.

(** ** pkg/provision/aws.go *)

Module Aws.
Section Methods.
Context {W : Type} `{SliceSorter}.

(** The constant [ActiveStatus] is declared elsewhere in the package. *)
Variable ActiveStatus : string.
(** [time.Parse(time.RFC3339, value)], [None] for a non-nil error. *)
Variable time_Parse_RFC3339 : string -> option Time.
(** [base64.StdEncoding.EncodeToString([]byte(s))]. *)
Variable base64_EncodeToString : string -> string.

(** The four filters of the image query. *)
Definition findAMI_input (name : string) : DescribeImagesInput :=
  {| Filters :=
       [ {| Name := "name"; Values := [name] |};
         {| Name := "is-public"; Values := ["true"] |};
         {| Name := "architecture"; Values := ["x86_64"] |};
         {| Name := "state"; Values := ["available"] |} ] |}.

(** The [for ... range describeResult.Images] loop of [findAMI], with
    [images] as accumulator; a parse error leaves the loop ([break]). *)
Fixpoint findAMI_range (rest : list Image) (images : list ami)
  : outcome (list ami) :=
  match rest with
  | [] => Ret images
  | image :: rest' =>
      value <- deref (CreationDate image) ;;
      match time_Parse_RFC3339 value with
      | None => Ret images
      | Some parsed =>
          id <- deref (ImageId image) ;;
          findAMI_range rest'
            (images ++ [ {| ami_ID := id; ami_CreationDate := parsed |} ])
      end
  end.

(** The [less] closure handed to sort.Slice. *)
Definition findAMI_less (a b : ami) : bool :=
  After (ami_CreationDate a) (ami_CreationDate b).

Definition findAMI (p : AWSProvisioner W) (name : string) : M W string :=
  let input := findAMI_input name in
  r <- request (DescribeImages (client p)) CallDescribeImages input ;;
  describeResult <- orReturn r ;;
  images <- pure (findAMI_range (Images describeResult) []) ;;
  let images := sort_Slice findAMI_less images in
  latest <- pure (index images 0) ;;
  ret (ami_ID latest).

(** The [for ... range describeResult.Vpcs] loop of
    [getOrCreateDefaultVPC]: [Some id] when it returns from inside the
    loop, [None] when it falls through. *)
Fixpoint getOrCreateDefaultVPC_range (vpcs : list Vpc) : outcome (option string) :=
  match vpcs with
  | [] => Ret None
  | vpc :: rest =>
      isDefault <- deref (IsDefault vpc) ;;
      if isDefault : bool then
        id <- deref (VpcId vpc) ;;
        Ret (Some id)
      else getOrCreateDefaultVPC_range rest
  end.

Definition getOrCreateDefaultVPC (p : AWSProvisioner W) : M W string :=
  r <- request (DescribeVpcs (client p)) (fun _ => CallDescribeVpcs) tt ;;
  describeResult <- orReturn r ;;
  found <- pure (getOrCreateDefaultVPC_range (Vpcs describeResult)) ;;
  match found with
  | Some id => ret id
  | None =>
      r <- request (CreateDefaultVpc (client p)) (fun _ => CallCreateDefaultVpc) tt ;;
      createResult <- orReturn r ;;
      vpc <- pure (deref (CreatedVpc createResult)) ;;
      pure (deref (VpcId vpc))
  end.

(** One element of [IpPermissions]: protocol tcp, one port, any source. *)
Definition tcp_from_anywhere (port : Z) : IpPermission :=
  {| IpProtocol := "tcp";
     FromPort := port;
     ToPort := port;
     IpRanges := [ {| CidrIp := "0.0.0.0/0" |} ] |}.

Definition createSecurityGroup_input (vpcID hostname : string)
  : CreateSecurityGroupInput :=
  {| Description := "Inlets security group";
     GroupName := "inlets-sg-" +:+ hostname;
     GroupVpcId := vpcID |}.

(** The last line returns [*securityGroupResult.GroupId] together with the
    error of the authorisation: the dereference comes first. *)
Definition createSecurityGroup (p : AWSProvisioner W)
    (vpcID hostname : string) (inletsPort : Z) : M W string :=
  r <- request (CreateSecurityGroup (client p)) CallCreateSecurityGroup
         (createSecurityGroup_input vpcID hostname) ;;
  securityGroupResult <- orReturn r ;;
  r <- request (AuthorizeSecurityGroupIngress (client p))
         CallAuthorizeSecurityGroupIngress
         {| IngressGroupId := GroupId securityGroupResult;
            IpPermissions :=
              [ tcp_from_anywhere 80;
                tcp_from_anywhere 443;
                tcp_from_anywhere inletsPort ] |} ;;
  id <- pure (deref (GroupId securityGroupResult)) ;;
  _ <- orReturn r ;;
  ret id.

(** Lines 244-247: the provider's state name, with "running" replaced. *)
Definition canonicalStatus (state : string) : string :=
  if String.eqb state "running" then ActiveStatus else state.

Definition reservationToPrivionedHost (reservation : Reservation)
  : outcome ProvisionedHost :=
  instance <- index (Instances reservation) 0 ;;
  let ip := match PublicIpAddress instance with
            | Some address => address
            | None => ""
            end in
  instanceState <- deref (State instance) ;;
  state <- deref (StateName instanceState) ;;
  let state := canonicalStatus state in
  id <- deref (InstanceId instance) ;;
  Ret {| ID := id; IP := ip; Status := state |}.

Definition Provision_input (host : BasicHost) (ami securityGroupID : string)
  : RunInstancesInput :=
  {| RunImageId := ami;
     InstanceType := Plan host;
     MinCount := 1;
     MaxCount := 1;
     UserData := base64_EncodeToString (HostUserData host);
     SecurityGroupIds := [securityGroupID];
     BlockDeviceMappings :=
       [ {| DeviceName := "/dev/sdh"; Ebs := {| VolumeSize := 20 |} |} ];
     TagSpecifications :=
       [ {| ResourceType := "instance";
            Tags := [ {| Key := "name"; Value := HostName host |} ] |} ] |}.

Definition Provision (p : AWSProvisioner W) (host : BasicHost)
  : M W ProvisionedHost :=
  ami <- findAMI p (OS host) ;;
  inletsPort <- orReturn (ParseInt (map_index (Additional host) "inlets-port")) ;;
  vpcID <- getOrCreateDefaultVPC p ;;
  securityGroupID <- createSecurityGroup p vpcID (HostName host) inletsPort ;;
  r <- request (RunInstances (client p)) CallRunInstances
         (Provision_input host ami securityGroupID) ;;
  runResult <- orReturn r ;;
  pure (reservationToPrivionedHost runResult).

Definition Status (p : AWSProvisioner W) (id : string) : M W ProvisionedHost :=
  r <- request (DescribeInstances (client p)) CallDescribeInstances
         {| InstanceIds := [id] |} ;;
  describeResult <- orReturn r ;;
  result <- pure (index (Reservations describeResult) 0) ;;
  pure (reservationToPrivionedHost result).

Definition Delete (p : AWSProvisioner W) (id : string) : M W unit :=
  r <- request (TerminateInstances (client p)) CallTerminateInstances
         {| TerminateIds := [id] |} ;;
  orReturn r.

End Methods.
End Aws.

(** ** The earlier revision of the file (src/unnamed/part_000) *)

Module Part000.
Section Methods.
Context {W : Type} `{SliceSorter}.

Variable ActiveStatus : string.
Variable time_Parse_RFC3339 : string -> option Time.
Variable base64_EncodeToString : string -> string.

Fixpoint findAMI_range (rest : list Image) (images : list ami)
  : outcome (list ami) :=
  match rest with
  | [] => Ret images
  | image :: rest' =>
      value <- deref (CreationDate image) ;;
      match time_Parse_RFC3339 value with
      | None => Ret images
      | Some parsed =>
          id <- deref (ImageId image) ;;
          findAMI_range rest'
            (images ++ [ {| ami_ID := id; ami_CreationDate := parsed |} ])
      end
  end.

Definition findAMI (p : AWSProvisioner W) (name : string) : M W string :=
  let input :=
    {| Filters :=
         [ {| Name := "name"; Values := [name] |};
           {| Name := "is-public"; Values := ["true"] |};
           {| Name := "architecture"; Values := ["x86_64"] |};
           {| Name := "state"; Values := ["available"] |} ] |} in
  r <- request (DescribeImages (client p)) CallDescribeImages input ;;
  describeResult <- orReturn r ;;
  images <- pure (findAMI_range (Images describeResult) []) ;;
  let images :=
    sort_Slice
      (fun a b => After (ami_CreationDate a) (ami_CreationDate b)) images in
  latest <- pure (index images 0) ;;
  ret (ami_ID latest).

Definition reservationToPrivionedHost (reservation : Reservation)
  : outcome ProvisionedHost :=
  instance <- index (Instances reservation) 0 ;;
  let ip := match PublicIpAddress instance with
            | Some address => address
            | None => ""
            end in
  instanceState <- deref (State instance) ;;
  state <- deref (StateName instanceState) ;;
  let state := if String.eqb state "running" then ActiveStatus else state in
  id <- deref (InstanceId instance) ;;
  Ret {| ID := id; IP := ip; Status := state |}.

(** This revision launches without a security group and reads no port. *)
Definition Provision (p : AWSProvisioner W) (host : BasicHost)
  : M W ProvisionedHost :=
  ami <- findAMI p (OS host) ;;
  r <- request (RunInstances (client p)) CallRunInstances
         {| RunImageId := ami;
            InstanceType := Plan host;
            MinCount := 1;
            MaxCount := 1;
            UserData := base64_EncodeToString (HostUserData host);
            SecurityGroupIds := [];
            BlockDeviceMappings :=
              [ {| DeviceName := "/dev/sdh"; Ebs := {| VolumeSize := 20 |} |} ];
            TagSpecifications :=
              [ {| ResourceType := "instance";
                   Tags := [ {| Key := "name"; Value := HostName host |} ] |} ] |} ;;
  runResult <- orReturn r ;;
  pure (reservationToPrivionedHost runResult).

Definition Status (p : AWSProvisioner W) (id : string) : M W ProvisionedHost :=
  let input := {| InstanceIds := [id] |} in
  r <- request (DescribeInstances (client p)) CallDescribeInstances input ;;
  describeResult <- orReturn r ;;
  result <- pure (index (Reservations describeResult) 0) ;;
  pure (reservationToPrivionedHost result).

Definition Delete (p : AWSProvisioner W) (id : string) : M W unit :=
  let input := {| TerminateIds := [id] |} in
  r <- request (TerminateInstances (client p)) CallTerminateInstances input ;;
  orReturn r.

End Methods.
End Part000.

(** ** Vocabulary of the statements *)

(** [image] is read by the loop as the candidate [a]. *)
Definition read_as (parse : string -> option Time) (image : Image) (a : ami) : Prop :=
  ImageId image = Some (ami_ID a) /\
  exists value, CreationDate image = Some value /\ parse value = Some (ami_CreationDate a).

(** A nil error. *)
Definition is_inr {A B : Type} (r : A + B) : bool :=
  match r with inl _ => false | inr _ => true end.

(** The authorisation request of [createSecurityGroup], for the group
    pointer it got back and the port it was given. *)
Definition ingress_rules (group : option string) (inletsPort : Z)
  : AuthorizeSecurityGroupIngressInput :=
  {| IngressGroupId := group;
     IpPermissions :=
       [ Aws.tcp_from_anywhere 80;
         Aws.tcp_from_anywhere 443;
         Aws.tcp_from_anywhere inletsPort ] |}.


(** The characters strconv.ParseInt reads as one decimal number. *)
Definition all_digits (s : string) : Prop :=
  s <> "" /\ List.Forall (fun c => is_digit c = true) (list_ascii_of_string s).

(** ** Fixtures: one sorter, one clock, one scripted service *)

Module Fixture.

(** Insertion sort, one sorter that meets the contract of sort.Slice. *)
Fixpoint insert {A : Type} (less : A -> A -> bool) (x : A) (xs : list A) : list A :=
  match xs with
  | [] => [x]
  | y :: rest => if less x y then x :: xs else y :: insert less x rest
  end.

Fixpoint insertion_sort {A : Type} (less : A -> A -> bool) (xs : list A) : list A :=
  match xs with
  | [] => []
  | x :: rest => insert less x (insertion_sort less rest)
  end.

Definition digit (c : ascii) : option Z :=
  if is_digit c then Some (Z.of_N (N_of_ascii c) - 48) else None.

(** The decimal number written by [cs], digits only. *)
Fixpoint decimal (cs : list ascii) (acc : Z) : option Z :=
  match cs with
  | [] => Some acc
  | c :: rest =>
      match digit c with
      | Some d => decimal rest (acc * 10 + d)
      | None => None
      end
  end.

Definition leap (y : Z) : bool :=
  ((y mod 4 =? 0) && negb (y mod 100 =? 0)) || (y mod 400 =? 0).

Definition days_in (y m : Z) : Z :=
  if m =? 2 then (if leap y then 29 else 28)
  else if (m =? 4) || (m =? 6) || (m =? 9) || (m =? 11) then 30 else 31.

(** Days from 1970-01-01 to the civil date y-m-d. *)
Definition days_from_civil (y m d : Z) : Z :=
  let y' := if m <=? 2 then y - 1 else y in
  let era := y' / 400 in
  let yoe := y' - era * 400 in
  let doy := (153 * (if 2 <? m then m - 3 else m + 9) + 2) / 5 + d - 1 in
  let doe := yoe * 365 + yoe / 4 - yoe / 100 + doy in
  era * 146097 + doe - 719468.

(** A clock for the examples: it reads the timestamps the service writes,
    [YYYY-MM-DDTHH:MM:SSZ], as seconds since 1970, and rejects any other
    string.  On these strings it orders as Go's parser does. *)
Definition parse_utc (value : string) : option Time :=
  match list_ascii_of_string value with
  | [y1; y2; y3; y4; "-"; m1; m2; "-"; d1; d2; "T";
     h1; h2; ":"; n1; n2; ":"; s1; s2; "Z"]%char =>
      match decimal [y1; y2; y3; y4] 0, decimal [m1; m2] 0, decimal [d1; d2] 0,
            decimal [h1; h2] 0, decimal [n1; n2] 0, decimal [s1; s2] 0 with
      | Some y, Some m, Some d, Some h, Some n, Some s =>
          if (1 <=? m) && (m <=? 12) && (1 <=? d) && (d <=? days_in y m)
             && (h <? 24) && (n <? 60) && (s <? 60)
          then Some (days_from_civil y m d * 86400 + h * 3600 + n * 60 + s)
          else None
      | _, _, _, _, _, _ => None
      end
  | _ => None
  end.

(** A service without state that gives the same scripted answer to every
    request of a kind. *)
Record Script : Type := {
  images : error + DescribeImagesOutput;
  vpcs : error + DescribeVpcsOutput;
  defaultVpc : error + CreateDefaultVpcOutput;
  securityGroup : error + CreateSecurityGroupOutput;
  ingress : error + unit;
  run : error + Reservation;
  instances : error + DescribeInstancesOutput;
  terminate : error + unit
}.

Definition scripted (a : Script) : AWSProvisioner unit :=
  {| client :=
       {| DescribeImages := fun _ w => (images a, w);
          DescribeVpcs := fun _ w => (vpcs a, w);
          CreateDefaultVpc := fun _ w => (defaultVpc a, w);
          CreateSecurityGroup := fun _ w => (securityGroup a, w);
          AuthorizeSecurityGroupIngress := fun _ w => (ingress a, w);
          RunInstances := fun _ w => (run a, w);
          DescribeInstances := fun _ w => (instances a, w);
          TerminateInstances := fun _ w => (terminate a, w) |} |}.

(** A service that has nothing and accepts nothing. *)
Definition refusing : Script :=
  {| images := inl (AwsError "RequestError");
     vpcs := inl (AwsError "RequestError");
     defaultVpc := inl (AwsError "RequestError");
     securityGroup := inl (AwsError "RequestError");
     ingress := inl (AwsError "RequestError");
     run := inl (AwsError "RequestError");
     instances := inl (AwsError "RequestError");
     terminate := inl (AwsError "RequestError") |}.

Definition start : St unit := {| world := tt; trace := [] |}.

Definition image (id date : string) : Image :=
  {| ImageId := Some id; CreationDate := Some date |}.

Definition with_images (listing : list Image) : Script :=
  {| images := inr {| Images := listing |};
     vpcs := vpcs refusing;
     defaultVpc := defaultVpc refusing;
     securityGroup := securityGroup refusing;
     ingress := ingress refusing;
     run := run refusing;
     instances := instances refusing;
     terminate := terminate refusing |}.

Definition with_instances (reservations : list Reservation) : Script :=
  {| images := images refusing;
     vpcs := vpcs refusing;
     defaultVpc := defaultVpc refusing;
     securityGroup := securityGroup refusing;
     ingress := ingress refusing;
     run := run refusing;
     instances := inr {| Reservations := reservations |};
     terminate := terminate refusing |}.

Definition instance (id state : string) : Instance :=
  {| InstanceId := Some id;
     PublicIpAddress := None;
     State := Some {| StateName := Some state |} |}.

(** A service with one image and a default network that accepts every
    request. *)
Definition accepting : Script :=
  {| images := inr {| Images := [image "ami-1" "2023-01-01T00:00:00Z"] |};
     vpcs := inr {| Vpcs := [ {| IsDefault := Some false; VpcId := Some "vpc-0" |};
                              {| IsDefault := Some true; VpcId := Some "vpc-1" |} ] |};
     defaultVpc :=
       inr {| CreatedVpc := Some {| IsDefault := Some true; VpcId := Some "vpc-2" |} |};
     securityGroup := inr {| GroupId := Some "sg-1" |};
     ingress := inr tt;
     run := inr {| Instances := [instance "i-0001" "pending"] |};
     instances := inr {| Reservations := [ {| Instances := [instance "i-0001" "running"] |} ] |};
     terminate := inr tt |}.

Definition host (parameters : gmap string string) : BasicHost :=
  {| HostName := "exit";
     OS := "debian";
     Plan := "t3.nano";
     HostUserData := "#!/bin/sh";
     Additional := parameters |}.

Definition base64_alphabet : list ascii :=
  list_ascii_of_string
    "ABCDEFGHIJKLMNOPQRSTUVWXYZabcdefghijklmnopqrstuvwxyz0123456789+/".

Definition base64_char (n : Z) : ascii :=
  nth (Z.to_nat n) base64_alphabet "="%char.

Fixpoint base64_groups (bytes : list Z) : list ascii :=
  match bytes with
  | [] => []
  | [a] => [base64_char (a / 4); base64_char (a mod 4 * 16); "="; "="]%char
  | [a; b] =>
      [base64_char (a / 4); base64_char (a mod 4 * 16 + b / 16);
       base64_char (b mod 16 * 4); "="]%char
  | a :: b :: c :: rest =>
      [base64_char (a / 4); base64_char (a mod 4 * 16 + b / 16);
       base64_char (b mod 16 * 4 + c / 64); base64_char (c mod 64)]
      ++ base64_groups rest
  end.

(** base64.StdEncoding.EncodeToString over the bytes of a string. *)
Definition base64 (s : string) : string :=
  string_of_list_ascii
    (base64_groups (map (fun c => Z.of_N (N_of_ascii c)) (list_ascii_of_string s))).

(** The same service, with no network flagged default. *)
Definition without_default_network (a : Script) : Script :=
  {| images := images a;
     vpcs := inr {| Vpcs := [ {| IsDefault := Some false; VpcId := Some "vpc-0" |} ] |};
     defaultVpc := defaultVpc a;
     securityGroup := securityGroup a;
     ingress := ingress a;
     run := run a;
     instances := instances a;
     terminate := terminate a |}.

(** The same service, refusing to authorise rules. *)
Definition refusing_ingress (a : Script) : Script :=
  {| images := images a;
     vpcs := vpcs a;
     defaultVpc := defaultVpc a;
     securityGroup := securityGroup a;
     ingress := inl (AwsError "InvalidPermission.Duplicate");
     run := run a;
     instances := instances a;
     terminate := terminate a |}.

End Fixture.

(** ** The fixtures do what they are for *)

Lemma insert_Permutation {A : Type} (less : A -> A -> bool) (x : A) (xs : list A) :
  Permutation (x :: xs) (Fixture.insert less x xs).
Proof.
  induction xs as [|y rest IH]; simpl.
  - reflexivity.
  - destruct (less x y).
    + reflexivity.
    + rewrite perm_swap. now apply perm_skip.
Qed.

Lemma insertion_sort_Permutation {A : Type} (less : A -> A -> bool) (xs : list A) :
  Permutation xs (Fixture.insertion_sort less xs).
Proof.
  induction xs as [|x rest IH]; simpl.
  - constructor.
  - rewrite <- insert_Permutation. now apply perm_skip.
Qed.

Lemma insert_Sorted {A : Type} (less : A -> A -> bool) (x : A) (xs : list A) :
  strict_weak_order less ->
  StronglySorted (fun a b => less b a = false) xs ->
  StronglySorted (fun a b => less b a = false) (Fixture.insert less x xs).
Proof.
  intros (Hirr & Htrans & _) Hsorted.
  induction Hsorted as [|y rest Hrest IH Hy]; simpl.
  - repeat constructor.
  - destruct (less x y) eqn:Hxy.
    + constructor; [now constructor|].
      assert (Hyx : less y x = false).
      { destruct (less y x) eqn:E; [|reflexivity].
        rewrite <- (Hirr x). symmetry. now apply Htrans with y. }
      constructor; [exact Hyx|].
      rewrite List.Forall_forall in Hy |- *. intros z Hz.
      destruct (less z x) eqn:E; [|reflexivity].
      rewrite <- (Hy z Hz). symmetry. now apply Htrans with x.
    + constructor; [exact IH|].
      rewrite List.Forall_forall in Hy |- *. intros z Hz.
      apply (Permutation_in z (Permutation_sym (insert_Permutation less x rest))) in Hz.
      destruct Hz as [<-|Hz]; [exact Hxy|now apply Hy].
Qed.

Lemma insertion_sort_Sorted {A : Type} (less : A -> A -> bool) (xs : list A) :
  strict_weak_order less ->
  StronglySorted (fun a b => less b a = false) (Fixture.insertion_sort less xs).
Proof.
  intros Hless. induction xs as [|x rest IH]; simpl.
  - constructor.
  - now apply insert_Sorted.
Qed.

#[global] Instance insertion_sorter : SliceSorter := {|
  sort_Slice := @Fixture.insertion_sort;
  sort_Slice_Permutation := @insertion_sort_Permutation;
  sort_Slice_Sorted := @insertion_sort_Sorted
|}.

Example ParseInt_port : ParseInt "8080" = inr 8080.
Proof. reflexivity. Qed.

Example ParseInt_signs : ParseInt "-5" = inr (-5) /\ ParseInt "+7" = inr 7.
Proof. split; reflexivity. Qed.

Example ParseInt_syntax :
  ParseInt "" = inl (NumError "ParseInt" "" ErrSyntax) /\
  ParseInt "-" = inl (NumError "ParseInt" "-" ErrSyntax) /\
  ParseInt "80a" = inl (NumError "ParseInt" "80a" ErrSyntax).
Proof. repeat split; reflexivity. Qed.

Example ParseInt_range :
  ParseInt "9223372036854775807" = inr 9223372036854775807 /\
  ParseInt "9223372036854775808"
  = inl (NumError "ParseInt" "9223372036854775808" ErrRange) /\
  ParseInt "-9223372036854775808" = inr (-9223372036854775808) /\
  ParseInt "99999999999999999999x"
  = inl (NumError "ParseInt" "99999999999999999999x" ErrRange).
Proof. repeat split; reflexivity. Qed.

Example parse_utc_epoch :
  Fixture.parse_utc "1970-01-01T00:00:00Z" = Some 0 /\
  Fixture.parse_utc "2024-02-29T12:30:05Z" = Some 1709209805 /\
  Fixture.parse_utc "2023-02-29T12:30:05Z" = None.
Proof. repeat split; reflexivity. Qed.

Example base64_padding :
  Fixture.base64 "Man" = "TWFu" /\
  Fixture.base64 "Ma" = "TWE=" /\
  Fixture.base64 "M" = "TQ==" /\
  Fixture.base64 "#!/bin/sh" = "IyEvYmluL3No".
Proof. repeat split; reflexivity. Qed.

(** The first scenario of the specification: the unparsable image comes
    last, and the newest of the two before it is returned. *)
Example findAMI_scenario :
  fst (Aws.findAMI Fixture.parse_utc
         (Fixture.scripted
            (Fixture.with_images
               [ Fixture.image "img-1" "2023-01-01T00:00:00Z";
                 Fixture.image "img-2" "2023-03-01T00:00:00Z";
                 Fixture.image "img-3" "not-a-date" ]))
         "debian" Fixture.start)
  = Ret "img-2".
Proof. reflexivity. Qed.

(** A running instance is reported active, and its missing address as the
    empty string. *)
Example Status_scenario :
  fst (Aws.Status "active" (Fixture.scripted Fixture.accepting) "i-0001" Fixture.start)
  = Ret {| ID := "i-0001"; IP := ""; Status := "active" |}.
Proof. reflexivity. Qed.

(** ** Image resolution *)

(** The closure of [findAMI] orders as sort.Slice requires. *)
Lemma findAMI_less_strict_weak_order : strict_weak_order Aws.findAMI_less.
Proof.
  unfold strict_weak_order, Aws.findAMI_less, After.
  repeat split; intros; lia.
Qed.

(** Over a listing where every image has its identifier and a timestamp that
    parses, the loop runs to the end and collects every image. *)
Lemma findAMI_range_all (parse : string -> option Time) (rest : list Image) :
  List.Forall (fun image => exists a, read_as parse image a) rest ->
  forall acc, exists amis,
    Aws.findAMI_range parse rest acc = Ret (acc ++ amis) /\
    List.Forall2 (read_as parse) rest amis.
Proof.
  induction 1 as [|image rest (a & Hid & value & Hdate & Hparse) _ IH]; intros acc.
  - exists []. split; [now rewrite app_nil_r|constructor].
  - destruct (IH (acc ++ [a])) as (amis & Hrun & Hall).
    exists (a :: amis). split.
    + simpl. rewrite Hdate. simpl. rewrite Hparse, Hid. simpl.
      destruct a as [id t]. simpl in *. rewrite Hrun.
      now rewrite <- app_assoc.
    + constructor; [|exact Hall]. split; [exact Hid|]. now exists value.
Qed.

(** The first element after sort.Slice is one of the elements, and none is
    [less] than it. *)
Lemma sort_Slice_head `{SliceSorter} {A : Type} (less : A -> A -> bool) (xs : list A) :
  strict_weak_order less ->
  xs <> [] ->
  exists top rest,
    sort_Slice less xs = top :: rest /\
    List.In top xs /\
    forall x, List.In x xs -> less x top = false.
Proof.
  intros Hless Hne.
  pose proof (sort_Slice_Permutation A less xs) as Hperm.
  pose proof (sort_Slice_Sorted A less xs Hless) as Hsorted.
  destruct (sort_Slice less xs) as [|top rest] eqn:E.
  - apply Permutation_sym, Permutation_nil in Hperm. contradiction.
  - exists top, rest. split; [reflexivity|]. split.
    + apply (Permutation_in top (Permutation_sym Hperm)). now left.
    + intros x Hx. apply (Permutation_in x Hperm) in Hx.
      destruct Hless as (Hirr & _).
      destruct Hx as [<-|Hx]; [apply Hirr|].
      apply StronglySorted_inv in Hsorted. destruct Hsorted as [_ Hall].
      rewrite List.Forall_forall in Hall. now apply Hall.
Qed.

Lemma Forall2_In_l {A B : Type} (R : A -> B -> Prop) (xs : list A) (ys : list B) (x : A) :
  List.Forall2 R xs ys -> List.In x xs -> exists y, List.In y ys /\ R x y.
Proof.
  induction 1 as [|x0 y0 xs ys HR _ IH]; intros Hin; [destruct Hin|].
  destruct Hin as [<-|Hin].
  - exists y0. split; [now left|exact HR].
  - destruct (IH Hin) as (y & Hy & Hxy). exists y. split; [now right|exact Hxy].
Qed.

Lemma Forall2_In_r {A B : Type} (R : A -> B -> Prop) (xs : list A) (ys : list B) (y : B) :
  List.Forall2 R xs ys -> List.In y ys -> exists x, List.In x xs /\ R x y.
Proof.
  induction 1 as [|x0 y0 xs ys HR _ IH]; intros Hin; [destruct Hin|].
  destruct Hin as [<-|Hin].
  - exists x0. split; [now left|exact HR].
  - destruct (IH Hin) as (x & Hx & Hxy). exists x. split; [now right|exact Hxy].
Qed.

(** C1. When the service answers the image query (name, is-public,
    architecture x86_64, state available) with a non-empty listing in which
    every image carries its identifier and a creation date that parses,
    [findAMI] returns the identifier of an image of the listing whose
    creation time no other image of the listing exceeds; it returns one
    also when several images share that time.  One request is sent. *)
Theorem findAMI_returns_latest
    {W : Type} `{SliceSorter} (parse : string -> option Time)
    (p : AWSProvisioner W) (name : string) (s : St W)
    (listing : list Image) (w : W) :
  DescribeImages (client p)
    {| Filters :=
         [ {| Name := "name"; Values := [name] |};
           {| Name := "is-public"; Values := ["true"] |};
           {| Name := "architecture"; Values := ["x86_64"] |};
           {| Name := "state"; Values := ["available"] |} ] |}
    (world s) = (inr {| Images := listing |}, w) ->
  listing <> [] ->
  List.Forall
    (fun image =>
       exists id value t,
         ImageId image = Some id /\ CreationDate image = Some value /\
         parse value = Some t) listing ->
  exists image id value t,
    List.In image listing /\
    ImageId image = Some id /\
    CreationDate image = Some value /\
    parse value = Some t /\
    (forall image' value' t',
        List.In image' listing -> CreationDate image' = Some value' ->
        parse value' = Some t' -> t' <= t) /\
    Aws.findAMI parse p name s =
      (Ret id,
       {| world := w;
          trace := trace s ++ [CallDescribeImages (Aws.findAMI_input name)] |}).
Proof.
  intros Hanswer Hne Hall.
  assert (Hall' : List.Forall (fun image => exists a, read_as parse image a) listing).
  { eapply List.Forall_impl; [|exact Hall].
    intros image (id & value & t & Hid & Hdate & Hparse).
    exists {| ami_ID := id; ami_CreationDate := t |}. split; [exact Hid|].
    now exists value. }
  destruct (findAMI_range_all parse listing Hall' []) as (amis & Hrun & Hread).
  simpl in Hrun.
  assert (Hamis : amis <> []).
  { intros ->. inversion Hread. congruence. }
  destruct (sort_Slice_head Aws.findAMI_less amis findAMI_less_strict_weak_order Hamis)
    as (top & rest & Hsort & Htop & Hmax).
  destruct (Forall2_In_r _ _ _ _ Hread Htop)
    as (image & Himage & Hid & value & Hdate & Hparse).
  exists image, (ami_ID top), value, (ami_CreationDate top).
  repeat split; try assumption.
  - intros image' value' t' Hin' Hdate' Hparse'.
    destruct (Forall2_In_l _ _ _ _ Hread Hin')
      as (a' & Ha' & _ & value'' & Hdate'' & Hparse'').
    assert (t' = ami_CreationDate a') by congruence. subst t'.
    specialize (Hmax a' Ha'). unfold Aws.findAMI_less, After in Hmax. lia.
  - unfold Aws.findAMI, request, Aws.findAMI_input. simpl. rewrite Hanswer. simpl.
    unfold pure. rewrite Hrun. rewrite Hsort. reflexivity.
Qed.

Lemma findAMI_returns_latest_witness :
  exists image id value t,
    List.In image
      [ Fixture.image "img-1" "2023-01-01T00:00:00Z";
        Fixture.image "img-2" "2023-03-01T00:00:00Z";
        Fixture.image "img-4" "2023-03-01T00:00:00Z" ] /\
    ImageId image = Some id /\
    CreationDate image = Some value /\
    Fixture.parse_utc value = Some t /\
    (forall image' value' t',
        List.In image'
          [ Fixture.image "img-1" "2023-01-01T00:00:00Z";
            Fixture.image "img-2" "2023-03-01T00:00:00Z";
            Fixture.image "img-4" "2023-03-01T00:00:00Z" ] ->
        CreationDate image' = Some value' ->
        Fixture.parse_utc value' = Some t' -> t' <= t) /\
    Aws.findAMI Fixture.parse_utc
      (Fixture.scripted
         (Fixture.with_images
            [ Fixture.image "img-1" "2023-01-01T00:00:00Z";
              Fixture.image "img-2" "2023-03-01T00:00:00Z";
              Fixture.image "img-4" "2023-03-01T00:00:00Z" ]))
      "debian" Fixture.start =
      (Ret id,
       {| world := tt;
          trace := trace Fixture.start
                   ++ [CallDescribeImages (Aws.findAMI_input "debian")] |}).
Proof.
  apply (findAMI_returns_latest Fixture.parse_utc
           (Fixture.scripted
              (Fixture.with_images
                 [ Fixture.image "img-1" "2023-01-01T00:00:00Z";
                   Fixture.image "img-2" "2023-03-01T00:00:00Z";
                   Fixture.image "img-4" "2023-03-01T00:00:00Z" ]))
           "debian" Fixture.start
           [ Fixture.image "img-1" "2023-01-01T00:00:00Z";
             Fixture.image "img-2" "2023-03-01T00:00:00Z";
             Fixture.image "img-4" "2023-03-01T00:00:00Z" ] tt).
  - reflexivity.
  - discriminate.
  - repeat constructor.
    + exists "img-1", "2023-01-01T00:00:00Z", 1672531200. repeat split; reflexivity.
    + exists "img-2", "2023-03-01T00:00:00Z", 1677628800. repeat split; reflexivity.
    + exists "img-4", "2023-03-01T00:00:00Z", 1677628800. repeat split; reflexivity.
Defined.

(** C2, on the code as written.  When the service answers the image query
    with an empty listing, [findAMI] reads [images[0]] of an empty slice: it
    panics with an index out of range and returns no error value. *)
Theorem findAMI_empty_listing_panics
    {W : Type} `{SliceSorter} (parse : string -> option Time)
    (p : AWSProvisioner W) (name : string) (s : St W) (w : W) :
  DescribeImages (client p) (Aws.findAMI_input name) (world s)
    = (inr {| Images := [] |}, w) ->
  Aws.findAMI parse p name s =
    (Panic (IndexOutOfRange 0 0),
     {| world := w;
        trace := trace s ++ [CallDescribeImages (Aws.findAMI_input name)] |}).
Proof.
  intros Hanswer.
  unfold Aws.findAMI, request. simpl. rewrite Hanswer. simpl.
  pose proof (sort_Slice_Permutation ami Aws.findAMI_less []) as Hperm.
  apply Permutation_nil in Hperm. rewrite Hperm. reflexivity.
Qed.

Lemma findAMI_empty_listing_panics_witness :
  Aws.findAMI Fixture.parse_utc (Fixture.scripted (Fixture.with_images []))
    "debian" Fixture.start
  = (Panic (IndexOutOfRange 0 0),
     {| world := tt; trace := [CallDescribeImages (Aws.findAMI_input "debian")] |}).
Proof.
  apply (findAMI_empty_listing_panics Fixture.parse_utc
           (Fixture.scripted (Fixture.with_images [])) "debian" Fixture.start tt).
  reflexivity.
Defined.

(** A timestamp that does not parse ends the loop: the images after it are
    never read, whatever they are. *)
Lemma findAMI_range_break (parse : string -> option Time)
    (before later : list Image) (bad : Image) (junk : string) (acc : list ami) :
  CreationDate bad = Some junk ->
  parse junk = None ->
  Aws.findAMI_range parse (before ++ bad :: later) acc
  = Aws.findAMI_range parse before acc.
Proof.
  intros Hdate Hparse. revert acc.
  induction before as [|image before IH]; intros acc; simpl.
  - now rewrite Hdate; simpl; rewrite Hparse.
  - destruct (CreationDate image) as [value|]; simpl; [|reflexivity].
    destruct (parse value); [|reflexivity].
    destruct (ImageId image); simpl; [apply IH|reflexivity].
Qed.

(** C3, on the code as written.  An image whose creation date does not parse
    is not skipped: it ends the scan.  With one good image before it that
    image is returned whatever follows, and with none before it [findAMI]
    panics on the empty slice, even when good images follow. *)
Theorem findAMI_stops_at_unparsable
    {W : Type} `{SliceSorter} (parse : string -> option Time)
    (p : AWSProvisioner W) (name : string) (s : St W) (w : W)
    (good bad : Image) (later : list Image) (id value junk : string) (t : Time) :
  ImageId good = Some id ->
  CreationDate good = Some value ->
  parse value = Some t ->
  CreationDate bad = Some junk ->
  parse junk = None ->
  (DescribeImages (client p) (Aws.findAMI_input name) (world s)
     = (inr {| Images := good :: bad :: later |}, w) ->
   Aws.findAMI parse p name s =
     (Ret id,
      {| world := w;
         trace := trace s ++ [CallDescribeImages (Aws.findAMI_input name)] |}))
  /\
  (DescribeImages (client p) (Aws.findAMI_input name) (world s)
     = (inr {| Images := bad :: later |}, w) ->
   Aws.findAMI parse p name s =
     (Panic (IndexOutOfRange 0 0),
      {| world := w;
         trace := trace s ++ [CallDescribeImages (Aws.findAMI_input name)] |})).
Proof.
  intros Hid Hdate Hparse Hbad Hjunk.
  assert (Hone : Aws.findAMI_range parse (good :: bad :: later) []
                 = Ret [ {| ami_ID := id; ami_CreationDate := t |} ]).
  { change (good :: bad :: later) with ([good] ++ bad :: later).
    rewrite (findAMI_range_break parse [good] later bad junk [] Hbad Hjunk).
    simpl. rewrite Hdate. simpl. rewrite Hparse, Hid. reflexivity. }
  assert (Hnone : Aws.findAMI_range parse (bad :: later) [] = Ret []).
  { exact (findAMI_range_break parse [] later bad junk [] Hbad Hjunk). }
  split; intros Hanswer.
  - unfold Aws.findAMI, request. cbn -[Aws.findAMI_range sort_Slice].
    rewrite Hanswer. cbn -[Aws.findAMI_range sort_Slice]. rewrite Hone.
    pose proof (sort_Slice_Permutation ami Aws.findAMI_less
                  [ {| ami_ID := id; ami_CreationDate := t |} ]) as Hperm.
    apply Permutation_length_1_inv in Hperm. rewrite Hperm. reflexivity.
  - unfold Aws.findAMI, request. cbn -[Aws.findAMI_range sort_Slice].
    rewrite Hanswer. cbn -[Aws.findAMI_range sort_Slice]. rewrite Hnone.
    pose proof (sort_Slice_Permutation ami Aws.findAMI_less []) as Hperm.
    apply Permutation_nil in Hperm. rewrite Hperm. reflexivity.
Qed.

Lemma findAMI_stops_at_unparsable_witness :
  (Fixture.parse_utc "2023-01-01T00:00:00Z" = Some 1672531200 /\
   Fixture.parse_utc "2023-03-01T00:00:00Z" = Some 1677628800 /\
   Fixture.parse_utc "not-a-date" = None) /\
  Aws.findAMI Fixture.parse_utc
    (Fixture.scripted
       (Fixture.with_images
          [ Fixture.image "img-1" "2023-01-01T00:00:00Z";
            Fixture.image "img-3" "not-a-date";
            Fixture.image "img-2" "2023-03-01T00:00:00Z" ]))
    "debian" Fixture.start
  = (Ret "img-1",
     {| world := tt; trace := [CallDescribeImages (Aws.findAMI_input "debian")] |}) /\
  Aws.findAMI Fixture.parse_utc
    (Fixture.scripted
       (Fixture.with_images
          [ Fixture.image "img-3" "not-a-date";
            Fixture.image "img-2" "2023-03-01T00:00:00Z" ]))
    "debian" Fixture.start
  = (Panic (IndexOutOfRange 0 0),
     {| world := tt; trace := [CallDescribeImages (Aws.findAMI_input "debian")] |}).
Proof.
  split; [repeat split; reflexivity|].
  split.
  - apply (findAMI_stops_at_unparsable Fixture.parse_utc
             (Fixture.scripted
                (Fixture.with_images
                   [ Fixture.image "img-1" "2023-01-01T00:00:00Z";
                     Fixture.image "img-3" "not-a-date";
                     Fixture.image "img-2" "2023-03-01T00:00:00Z" ]))
             "debian" Fixture.start tt
             (Fixture.image "img-1" "2023-01-01T00:00:00Z")
             (Fixture.image "img-3" "not-a-date")
             [Fixture.image "img-2" "2023-03-01T00:00:00Z"]
             "img-1" "2023-01-01T00:00:00Z" "not-a-date" 1672531200);
      reflexivity.
  - apply (findAMI_stops_at_unparsable Fixture.parse_utc
             (Fixture.scripted
                (Fixture.with_images
                   [ Fixture.image "img-3" "not-a-date";
                     Fixture.image "img-2" "2023-03-01T00:00:00Z" ]))
             "debian" Fixture.start tt
             (Fixture.image "img-1" "2023-01-01T00:00:00Z")
             (Fixture.image "img-3" "not-a-date")
             [Fixture.image "img-2" "2023-03-01T00:00:00Z"]
             "img-1" "2023-01-01T00:00:00Z" "not-a-date" 1672531200);
      reflexivity.
Defined.

(** ** Status *)

(** C4, on the code as written.  When the describe call succeeds with no
    reservation, or with a first reservation that holds no instance,
    [Status] indexes element 0 of the empty slice: it panics with an index
    out of range and returns no error value. *)
Theorem Status_without_result_panics
    {W : Type} (ActiveStatus : string) (p : AWSProvisioner W)
    (id : string) (s : St W) (out : DescribeInstancesOutput) (w : W) :
  DescribeInstances (client p) {| InstanceIds := [id] |} (world s) = (inr out, w) ->
  Reservations out = [] \/
  (exists rest, Reservations out = {| Instances := [] |} :: rest) ->
  Aws.Status ActiveStatus p id s =
    (Panic (IndexOutOfRange 0 0),
     {| world := w;
        trace := trace s ++ [CallDescribeInstances {| InstanceIds := [id] |}] |}).
Proof.
  intros Hanswer Hempty.
  unfold Aws.Status, request. simpl. rewrite Hanswer. simpl.
  destruct Hempty as [->|(rest & ->)]; reflexivity.
Qed.

Lemma Status_without_result_panics_witness :
  Aws.Status "active" (Fixture.scripted (Fixture.with_instances [])) "i-0000"
    Fixture.start
  = (Panic (IndexOutOfRange 0 0),
     {| world := tt;
        trace := [CallDescribeInstances {| InstanceIds := ["i-0000"] |}] |}) /\
  Aws.Status "active"
    (Fixture.scripted (Fixture.with_instances [ {| Instances := [] |} ])) "i-0000"
    Fixture.start
  = (Panic (IndexOutOfRange 0 0),
     {| world := tt;
        trace := [CallDescribeInstances {| InstanceIds := ["i-0000"] |}] |}).
Proof.
  split.
  - apply (Status_without_result_panics "active"
             (Fixture.scripted (Fixture.with_instances [])) "i-0000" Fixture.start
             {| Reservations := [] |} tt).
    + reflexivity.
    + left. reflexivity.
  - apply (Status_without_result_panics "active"
             (Fixture.scripted (Fixture.with_instances [ {| Instances := [] |} ]))
             "i-0000" Fixture.start
             {| Reservations := [ {| Instances := [] |} ] |} tt).
    + reflexivity.
    + right. exists []. reflexivity.
Defined.

(** ** The ingress boundary *)



(** ** The default network *)

(** Over a listing where every network has its flag and its identifier and
    one is flagged default, the loop returns from inside, at the first
    network flagged default. *)
Lemma getOrCreateDefaultVPC_range_default (vpcs : list Vpc) :
  List.Forall (fun vpc => IsDefault vpc <> None /\ VpcId vpc <> None) vpcs ->
  (exists vpc, List.In vpc vpcs /\ IsDefault vpc = Some true) ->
  exists before vpc after id,
    vpcs = before ++ vpc :: after /\
    List.Forall (fun other => IsDefault other = Some false) before /\
    IsDefault vpc = Some true /\
    VpcId vpc = Some id /\
    Aws.getOrCreateDefaultVPC_range vpcs = Ret (Some id).
Proof.
  induction 1 as [|first rest [Hflag Hid] _ IH]; intros (vpc & Hin & Hdefault).
  - destruct Hin.
  - destruct (IsDefault first) as [[|]|] eqn:Efirst; [| |congruence].
    + destruct (VpcId first) as [id|] eqn:Eid; [|congruence].
      exists [], first, rest, id. simpl. rewrite Efirst. simpl. rewrite Eid.
      repeat split; auto.
    + destruct Hin as [->|Hin]; [congruence|].
      destruct IH as (before & found & after & id & -> & Hbefore & Hfound & Hid' & Hrun).
      { now exists vpc. }
      exists (first :: before), found, after, id. simpl. rewrite Efirst. simpl.
      repeat split; auto.
Qed.

(** C6. When the listing of networks has a network flagged default (and
    every network of the listing carries its flag and its identifier),
    [getOrCreateDefaultVPC] returns the identifier of the first such network
    and sends the listing request only.  Called again while the service
    gives the same listing, it returns the same identifier, and the two
    calls together have sent two listing requests and no creation. *)
Theorem getOrCreateDefaultVPC_idempotent
    {W : Type} (p : AWSProvisioner W) (s : St W) (vpcs : list Vpc) (w1 : W) :
  DescribeVpcs (client p) tt (world s) = (inr {| Vpcs := vpcs |}, w1) ->
  List.Forall (fun vpc => IsDefault vpc <> None /\ VpcId vpc <> None) vpcs ->
  (exists vpc, List.In vpc vpcs /\ IsDefault vpc = Some true) ->
  exists before vpc after id,
    vpcs = before ++ vpc :: after /\
    List.Forall (fun other => IsDefault other = Some false) before /\
    IsDefault vpc = Some true /\
    VpcId vpc = Some id /\
    Aws.getOrCreateDefaultVPC p s =
      (Ret id, {| world := w1; trace := trace s ++ [CallDescribeVpcs] |}) /\
    forall w2,
      DescribeVpcs (client p) tt w1 = (inr {| Vpcs := vpcs |}, w2) ->
      Aws.getOrCreateDefaultVPC p
        {| world := w1; trace := trace s ++ [CallDescribeVpcs] |} =
      (Ret id,
       {| world := w2; trace := trace s ++ [CallDescribeVpcs; CallDescribeVpcs] |}).
Proof.
  intros Hanswer Hall Hsome.
  destruct (getOrCreateDefaultVPC_range_default vpcs Hall Hsome)
    as (before & vpc & after & id & Hsplit & Hbefore & Hdefault & Hid & Hrun).
  exists before, vpc, after, id. repeat split; try assumption.
  - unfold Aws.getOrCreateDefaultVPC, request.
    cbn -[Aws.getOrCreateDefaultVPC_range]. rewrite Hanswer.
    cbn -[Aws.getOrCreateDefaultVPC_range]. now rewrite Hrun.
  - intros w2 Hagain.
    unfold Aws.getOrCreateDefaultVPC, request.
    cbn -[Aws.getOrCreateDefaultVPC_range]. rewrite Hagain.
    cbn -[Aws.getOrCreateDefaultVPC_range]. rewrite Hrun.
    now rewrite <- app_assoc.
Qed.

Lemma getOrCreateDefaultVPC_idempotent_witness :
  exists before vpc after id,
    [ {| IsDefault := Some false; VpcId := Some "vpc-0" |};
      {| IsDefault := Some true; VpcId := Some "vpc-1" |} ]
    = before ++ vpc :: after /\
    List.Forall (fun other => IsDefault other = Some false) before /\
    IsDefault vpc = Some true /\
    VpcId vpc = Some id /\
    Aws.getOrCreateDefaultVPC (Fixture.scripted Fixture.accepting) Fixture.start =
      (Ret id, {| world := tt; trace := [CallDescribeVpcs] |}) /\
    forall w2,
      DescribeVpcs (client (Fixture.scripted Fixture.accepting)) tt tt
      = (inr {| Vpcs := [ {| IsDefault := Some false; VpcId := Some "vpc-0" |};
                          {| IsDefault := Some true; VpcId := Some "vpc-1" |} ] |}, w2) ->
      Aws.getOrCreateDefaultVPC (Fixture.scripted Fixture.accepting)
        {| world := tt; trace := [CallDescribeVpcs] |} =
      (Ret id, {| world := w2; trace := [CallDescribeVpcs; CallDescribeVpcs] |}).
Proof.
  apply (getOrCreateDefaultVPC_idempotent (Fixture.scripted Fixture.accepting)
           Fixture.start
           [ {| IsDefault := Some false; VpcId := Some "vpc-0" |};
             {| IsDefault := Some true; VpcId := Some "vpc-1" |} ] tt).
  - reflexivity.
  - repeat constructor; discriminate.
  - exists {| IsDefault := Some true; VpcId := Some "vpc-1" |}.
    split; [right; left; reflexivity|reflexivity].
Defined.

(** ** Status normalisation *)

(** C7. The state name of the provider is mapped by a function that is
    defined on every string: "running" goes to [ActiveStatus], any other
    string, known to the provider or not, comes back as it is.
    [reservationToPrivionedHost] reports the first instance of a
    reservation with exactly this status. *)
Theorem canonicalStatus_running_else_unchanged (ActiveStatus : string) :
  Aws.canonicalStatus ActiveStatus "running" = ActiveStatus /\
  (forall state, state <> "running" -> Aws.canonicalStatus ActiveStatus state = state) /\
  (forall id address state others,
      Aws.reservationToPrivionedHost ActiveStatus
        {| Instances :=
             {| InstanceId := Some id;
                PublicIpAddress := address;
                State := Some {| StateName := Some state |} |} :: others |}
      = Ret {| ID := id;
               IP := default "" address;
               Status := Aws.canonicalStatus ActiveStatus state |}).
Proof.
  split; [reflexivity|]. split.
  - intros state Hstate. unfold Aws.canonicalStatus.
    destruct (String.eqb_spec state "running"); [contradiction|reflexivity].
  - intros id [address|] state others; reflexivity.
Qed.

Lemma canonicalStatus_running_else_unchanged_witness :
  Aws.canonicalStatus "active" "running" = "active" /\
  Aws.canonicalStatus "active" "terminated" = "terminated" /\
  Aws.canonicalStatus "active" "no-such-state" = "no-such-state".
Proof.
  destruct (canonicalStatus_running_else_unchanged "active") as (Hrunning & Hother & _).
  split; [exact Hrunning|].
  split; apply Hother; discriminate.
Defined.

(** ** The tunnel port *)




(** A failure of strconv.ParseInt is a NumError of ParseInt on its input. *)
Lemma ParseInt_error (value : string) (e : error) :
  ParseInt value = inl e -> exists err, e = NumError "ParseInt" value err.
Proof.
  unfold ParseInt. destruct value as [|c rest]; [intros [= <-]; eauto|].
  destruct (ParseUint _) as [[|]|un]; [intros [= <-]; eauto..|].
  repeat match goal with |- context [if ?b then _ else _] => destruct b end;
    intros [= <-] || intros [=]; eauto.
Qed.

(** [findAMI] sends the image query and nothing else, however it ends. *)
Lemma findAMI_trace
    {W : Type} `{SliceSorter} (parse : string -> option Time)
    (p : AWSProvisioner W) (name : string) (s : St W) :
  trace (snd (Aws.findAMI parse p name s)) =
    trace s ++ [CallDescribeImages (Aws.findAMI_input name)].
Proof.
  unfold Aws.findAMI, request. cbn -[Aws.findAMI_range sort_Slice].
  destruct (DescribeImages _ _ _) as [[e|out] w]; cbn -[Aws.findAMI_range sort_Slice];
    [reflexivity|].
  destruct (Aws.findAMI_range parse (Images out) []) as [found|e|q];
    cbn -[sort_Slice]; try reflexivity.
  destruct (index (sort_Slice Aws.findAMI_less found) 0); reflexivity.
Qed.

(** C9 as stated is refuted: with no tunnel port in the request, the image
    query has been sent by the time [Provision] fails; and when the image
    query itself fails, [Provision] fails with that error and not with the
    error of the port. *)
Lemma Provision_queries_images_before_port :
  Additional (Fixture.host ∅) !! "inlets-port" = None /\
  Aws.Provision "active" Fixture.parse_utc Fixture.base64
    (Fixture.scripted Fixture.accepting) (Fixture.host ∅) Fixture.start
  = (Err (NumError "ParseInt" "" ErrSyntax),
     {| world := tt; trace := [CallDescribeImages (Aws.findAMI_input "debian")] |}) /\
  Aws.Provision "active" Fixture.parse_utc Fixture.base64
    (Fixture.scripted Fixture.refusing) (Fixture.host ∅) Fixture.start
  = (Err (AwsError "RequestError"),
     {| world := tt; trace := [CallDescribeImages (Aws.findAMI_input "debian")] |}).
Proof.
  split; [reflexivity|]. split; vm_compute; reflexivity.
Qed.

(** C9, amended.  When the request has no tunnel port, or one that
    strconv.ParseInt rejects, [Provision] never succeeds and sends exactly
    one request, the image query: no network, group or instance request
    follows.  It fails with the NumError of ParseInt when the image is
    resolved, and as [findAMI] failed otherwise. *)
Theorem Provision_without_port_fails_after_image_query
    {W : Type} `{SliceSorter} (ActiveStatus : string)
    (parse : string -> option Time) (base64 : string -> string)
    (p : AWSProvisioner W) (host : BasicHost) (s : St W) :
  Additional host !! "inlets-port" = None \/
  (exists value e,
      Additional host !! "inlets-port" = Some value /\ ParseInt value = inl e) ->
  exists err,
    Aws.Provision ActiveStatus parse base64 p host s =
      match Aws.findAMI parse p (OS host) s with
      | (Ret _, s1) =>
          (Err (NumError "ParseInt" (map_index (Additional host) "inlets-port") err), s1)
      | (Err e, s1) => (Err e, s1)
      | (Panic q, s1) => (Panic q, s1)
      end /\
    (forall result, fst (Aws.Provision ActiveStatus parse base64 p host s) <> Ret result) /\
    trace (snd (Aws.Provision ActiveStatus parse base64 p host s)) =
      trace s ++ [CallDescribeImages (Aws.findAMI_input (OS host))].
Proof.
  intros Hport.
  assert (Hfail : exists e, ParseInt (map_index (Additional host) "inlets-port") = inl e).
  { unfold map_index. destruct Hport as [->|(value & e & -> & Hparse)]; simpl; eauto. }
  destruct Hfail as (e & Hfail).
  destruct (ParseInt_error _ _ Hfail) as (err & ->).
  exists err.
  pose proof (findAMI_trace parse p (OS host) s) as Htrace.
  assert (Hrun : Aws.Provision ActiveStatus parse base64 p host s =
                 match Aws.findAMI parse p (OS host) s with
                 | (Ret _, s1) =>
                     (Err (NumError "ParseInt"
                             (map_index (Additional host) "inlets-port") err), s1)
                 | (Err e, s1) => (Err e, s1)
                 | (Panic q, s1) => (Panic q, s1)
                 end).
  { unfold Aws.Provision. cbn [bind M_monad].
    destruct (Aws.findAMI parse p (OS host) s) as [[ami|e|q] s1]; try reflexivity.
    now rewrite Hfail. }
  split; [exact Hrun|]. rewrite Hrun.
  destruct (Aws.findAMI parse p (OS host) s) as [[ami|e|q] s1];
    (split; [discriminate|exact Htrace]).
Qed.

Lemma Provision_without_port_fails_after_image_query_witness :
  exists err,
    Aws.Provision "active" Fixture.parse_utc Fixture.base64
      (Fixture.scripted Fixture.accepting) (Fixture.host ∅) Fixture.start =
      match Aws.findAMI Fixture.parse_utc (Fixture.scripted Fixture.accepting)
              (OS (Fixture.host ∅)) Fixture.start with
      | (Ret _, s1) =>
          (Err (NumError "ParseInt"
                  (map_index (Additional (Fixture.host ∅)) "inlets-port") err), s1)
      | (Err e, s1) => (Err e, s1)
      | (Panic q, s1) => (Panic q, s1)
      end /\
    (forall result,
        fst (Aws.Provision "active" Fixture.parse_utc Fixture.base64
               (Fixture.scripted Fixture.accepting) (Fixture.host ∅) Fixture.start)
        <> Ret result) /\
    trace (snd (Aws.Provision "active" Fixture.parse_utc Fixture.base64
                  (Fixture.scripted Fixture.accepting) (Fixture.host ∅) Fixture.start)) =
      trace Fixture.start ++ [CallDescribeImages (Aws.findAMI_input (OS (Fixture.host ∅)))].
Proof.
  apply (Provision_without_port_fails_after_image_query "active" Fixture.parse_utc
           Fixture.base64 (Fixture.scripted Fixture.accepting) (Fixture.host ∅)
           Fixture.start).
  left. reflexivity.
Defined.

(** ** The two revisions *)

(** The loop of [findAMI] is the same function in both files. *)
Lemma findAMI_range_same (parse : string -> option Time)
    (rest : list Image) (images : list ami) :
  Aws.findAMI_range parse rest images = Part000.findAMI_range parse rest images.
Proof.
  revert images. induction rest as [|image rest IH]; intros images; simpl.
  - reflexivity.
  - destruct (CreationDate image) as [value|]; simpl; [|reflexivity].
    destruct (parse value); [|reflexivity].
    destruct (ImageId image); simpl; [apply IH|reflexivity].
Qed.

(** C10. [findAMI] of aws.go and [findAMI] of the earlier revision send the
    same request and end in the same way (identifier, error or panic) from
    every state of every service, and the two
    [reservationToPrivionedHost] give the same host, or the same panic, on
    every reservation. *)
Theorem revisions_agree
    {W : Type} `{SliceSorter} (ActiveStatus : string)
    (parse : string -> option Time) (p : AWSProvisioner W) :
  (forall name s, Aws.findAMI parse p name s = Part000.findAMI parse p name s) /\
  (forall reservation,
      Aws.reservationToPrivionedHost ActiveStatus reservation
      = Part000.reservationToPrivionedHost ActiveStatus reservation).
Proof.
  split.
  - intros name s.
    unfold Aws.findAMI, Part000.findAMI, Aws.findAMI_input, request.
    cbn -[Aws.findAMI_range Part000.findAMI_range sort_Slice].
    destruct (DescribeImages _ _ _) as [[e|out] w];
      cbn -[Aws.findAMI_range Part000.findAMI_range sort_Slice]; [reflexivity|].
    now rewrite findAMI_range_same.
  - intros reservation.
    unfold Aws.reservationToPrivionedHost, Part000.reservationToPrivionedHost,
      Aws.canonicalStatus.
    reflexivity.
Qed.

(** ** How the methods run, request by request *)

(** [createSecurityGroup], by the answers to its two requests. *)
Lemma createSecurityGroup_run
    {W : Type} (p : AWSProvisioner W) (vpcID hostname : string) (inletsPort : Z)
    (s : St W) :
  Aws.createSecurityGroup p vpcID hostname inletsPort s =
  match CreateSecurityGroup (client p)
          (Aws.createSecurityGroup_input vpcID hostname) (world s) with
  | (inl e, w1) =>
      (Err e,
       {| world := w1;
          trace := trace s ++
            [CallCreateSecurityGroup (Aws.createSecurityGroup_input vpcID hostname)] |})
  | (inr out, w1) =>
      match AuthorizeSecurityGroupIngress (client p)
              (ingress_rules (GroupId out) inletsPort) w1 with
      | (r, w2) =>
          (match GroupId out with
           | None => Panic NilDereference
           | Some id => match r with inl e => Err e | inr _ => Ret id end
           end,
           {| world := w2;
              trace := trace s ++
                [ CallCreateSecurityGroup (Aws.createSecurityGroup_input vpcID hostname);
                  CallAuthorizeSecurityGroupIngress
                    (ingress_rules (GroupId out) inletsPort) ] |})
      end
  end.
Proof.
  unfold Aws.createSecurityGroup, request, ingress_rules. simpl.
  destruct (CreateSecurityGroup _ _ _) as [[e|out] w1]; simpl; [reflexivity|].
  destruct (AuthorizeSecurityGroupIngress _ _ _) as [r w2]; simpl.
  rewrite <- app_assoc. simpl.
  destruct (GroupId out); simpl; [|reflexivity].
  destruct r; reflexivity.
Qed.

(** [getOrCreateDefaultVPC], by the answers to its requests. *)
Lemma getOrCreateDefaultVPC_run {W : Type} (p : AWSProvisioner W) (s : St W) :
  Aws.getOrCreateDefaultVPC p s =
  match DescribeVpcs (client p) tt (world s) with
  | (inl e, w1) => (Err e, {| world := w1; trace := trace s ++ [CallDescribeVpcs] |})
  | (inr out, w1) =>
      match Aws.getOrCreateDefaultVPC_range (Vpcs out) with
      | Ret (Some id) =>
          (Ret id, {| world := w1; trace := trace s ++ [CallDescribeVpcs] |})
      | Ret None =>
          match CreateDefaultVpc (client p) tt w1 with
          | (inl e, w2) =>
              (Err e,
               {| world := w2;
                  trace := trace s ++ [CallDescribeVpcs; CallCreateDefaultVpc] |})
          | (inr created, w2) =>
              (vpc <- deref (CreatedVpc created) ;; deref (VpcId vpc),
               {| world := w2;
                  trace := trace s ++ [CallDescribeVpcs; CallCreateDefaultVpc] |})
          end
      | Err e => (Err e, {| world := w1; trace := trace s ++ [CallDescribeVpcs] |})
      | Panic q => (Panic q, {| world := w1; trace := trace s ++ [CallDescribeVpcs] |})
      end
  end.
Proof.
  unfold Aws.getOrCreateDefaultVPC, request.
  cbn -[Aws.getOrCreateDefaultVPC_range].
  destruct (DescribeVpcs _ _ _) as [[e|out] w1];
    cbn -[Aws.getOrCreateDefaultVPC_range]; [reflexivity|].
  destruct (Aws.getOrCreateDefaultVPC_range (Vpcs out)) as [[id|]|e|q];
    cbn; try reflexivity.
  destruct (CreateDefaultVpc _ _ _) as [[e|created] w2]; cbn;
    rewrite <- app_assoc; simpl; [reflexivity|].
  destruct (CreatedVpc created) as [vpc|]; cbn; [|reflexivity].
  destruct (VpcId vpc); reflexivity.
Qed.



(** ** Provision, as a whole *)




(** ** The default network, when there is none *)

(** Over a listing without a default network the loop falls through. *)
Lemma getOrCreateDefaultVPC_range_none (vpcs : list Vpc) :
  List.Forall (fun vpc => IsDefault vpc = Some false) vpcs ->
  Aws.getOrCreateDefaultVPC_range vpcs = Ret None.
Proof.
  induction 1 as [|vpc rest Hflag _ IH]; simpl; [reflexivity|].
  now rewrite Hflag.
Qed.

(** X3. When the listing of networks is empty or flags none of its networks
    as default, [getOrCreateDefaultVPC] sends one creation request after the
    listing.  It returns the identifier of the network the service created,
    or the error of the creation as it came. *)
Theorem getOrCreateDefaultVPC_creates_missing_default
    {W : Type} (p : AWSProvisioner W) (s : St W) (vpcs : list Vpc) (w1 w2 : W)
    (answer : error + CreateDefaultVpcOutput) :
  DescribeVpcs (client p) tt (world s) = (inr {| Vpcs := vpcs |}, w1) ->
  List.Forall (fun vpc => IsDefault vpc = Some false) vpcs ->
  CreateDefaultVpc (client p) tt w1 = (answer, w2) ->
  snd (Aws.getOrCreateDefaultVPC p s) =
    {| world := w2; trace := trace s ++ [CallDescribeVpcs; CallCreateDefaultVpc] |} /\
  (forall e, answer = inl e -> fst (Aws.getOrCreateDefaultVPC p s) = Err e) /\
  (forall flag id,
      answer = inr {| CreatedVpc := Some {| IsDefault := flag; VpcId := Some id |} |} ->
      fst (Aws.getOrCreateDefaultVPC p s) = Ret id).
Proof.
  intros Hlist Hnone Hcreate.
  rewrite getOrCreateDefaultVPC_run, Hlist. cbn [Vpcs].
  rewrite (getOrCreateDefaultVPC_range_none vpcs Hnone), Hcreate.
  destruct answer as [e|created]; cbn [fst snd].
  - split; [reflexivity|]. split; [now intros e' [= <-]|intros flag id [=]].
  - split; [reflexivity|]. split; [intros e [=]|now intros flag id [= ->]].
Qed.

Lemma getOrCreateDefaultVPC_creates_missing_default_witness :
  snd (Aws.getOrCreateDefaultVPC
         (Fixture.scripted (Fixture.without_default_network Fixture.accepting))
         Fixture.start) =
    {| world := tt; trace := trace Fixture.start
                             ++ [CallDescribeVpcs; CallCreateDefaultVpc] |} /\
  (forall e,
      Fixture.defaultVpc Fixture.accepting = inl e ->
      fst (Aws.getOrCreateDefaultVPC
             (Fixture.scripted (Fixture.without_default_network Fixture.accepting))
             Fixture.start) = Err e) /\
  (forall flag id,
      Fixture.defaultVpc Fixture.accepting
      = inr {| CreatedVpc := Some {| IsDefault := flag; VpcId := Some id |} |} ->
      fst (Aws.getOrCreateDefaultVPC
             (Fixture.scripted (Fixture.without_default_network Fixture.accepting))
             Fixture.start) = Ret id).
Proof.
  apply (getOrCreateDefaultVPC_creates_missing_default
           (Fixture.scripted (Fixture.without_default_network Fixture.accepting))
           Fixture.start
           [ {| IsDefault := Some false; VpcId := Some "vpc-0" |} ] tt tt
           (Fixture.defaultVpc Fixture.accepting)).
  - reflexivity.
  - repeat constructor.
  - reflexivity.
Defined.

(** ** The ingress boundary, when a request fails *)

(** X4. When the creation of the group fails, [createSecurityGroup] returns
    that error and has sent no authorisation.  When the group is created and
    the authorisation fails, it returns the error of the authorisation, and
    the two requests are all it has sent: the group stays behind, no request
    removes it. *)
Theorem createSecurityGroup_failure_modes
    {W : Type} (p : AWSProvisioner W) (vpcID hostname : string) (inletsPort : Z)
    (s : St W) :
  (forall e w1,
      CreateSecurityGroup (client p)
        (Aws.createSecurityGroup_input vpcID hostname) (world s) = (inl e, w1) ->
      Aws.createSecurityGroup p vpcID hostname inletsPort s =
        (Err e,
         {| world := w1;
            trace := trace s ++
              [CallCreateSecurityGroup (Aws.createSecurityGroup_input vpcID hostname)] |}))
  /\
  (forall groupID e w1 w2,
      CreateSecurityGroup (client p)
        (Aws.createSecurityGroup_input vpcID hostname) (world s)
      = (inr {| GroupId := Some groupID |}, w1) ->
      AuthorizeSecurityGroupIngress (client p)
        (ingress_rules (Some groupID) inletsPort) w1 = (inl e, w2) ->
      Aws.createSecurityGroup p vpcID hostname inletsPort s =
        (Err e,
         {| world := w2;
            trace := trace s ++
              [ CallCreateSecurityGroup (Aws.createSecurityGroup_input vpcID hostname);
                CallAuthorizeSecurityGroupIngress
                  (ingress_rules (Some groupID) inletsPort) ] |})).
Proof.
  split.
  - intros e w1 Hcreate. now rewrite createSecurityGroup_run, Hcreate.
  - intros groupID e w1 w2 Hcreate Hauth.
    rewrite createSecurityGroup_run, Hcreate. cbn [GroupId]. now rewrite Hauth.
Qed.

Lemma createSecurityGroup_failure_modes_witness :
  Aws.createSecurityGroup (Fixture.scripted Fixture.refusing)
    "vpc-1" "exit" 8080 Fixture.start =
    (Err (AwsError "RequestError"),
     {| world := tt;
        trace := trace Fixture.start ++
          [CallCreateSecurityGroup (Aws.createSecurityGroup_input "vpc-1" "exit")] |})
  /\
  Aws.createSecurityGroup
    (Fixture.scripted (Fixture.refusing_ingress Fixture.accepting))
    "vpc-1" "exit" 8080 Fixture.start =
    (Err (AwsError "InvalidPermission.Duplicate"),
     {| world := tt;
        trace := trace Fixture.start ++
          [ CallCreateSecurityGroup (Aws.createSecurityGroup_input "vpc-1" "exit");
            CallAuthorizeSecurityGroupIngress (ingress_rules (Some "sg-1") 8080) ] |}).
Proof.
  split.
  - apply (proj1 (createSecurityGroup_failure_modes
                    (Fixture.scripted Fixture.refusing) "vpc-1" "exit" 8080
                    Fixture.start)).
    reflexivity.
  - apply (proj2 (createSecurityGroup_failure_modes
                    (Fixture.scripted (Fixture.refusing_ingress Fixture.accepting))
                    "vpc-1" "exit" 8080 Fixture.start) "sg-1" _ tt tt);
      reflexivity.
Defined.

(** ** Image resolution, beyond the well-formed listing *)

(** [findAMI], by the answer to its request and the run of its loop. *)
Lemma findAMI_run
    {W : Type} `{SliceSorter} (parse : string -> option Time)
    (p : AWSProvisioner W) (name : string) (s : St W) :
  Aws.findAMI parse p name s =
  match DescribeImages (client p) (Aws.findAMI_input name) (world s) with
  | (inl e, w) =>
      (Err e,
       {| world := w;
          trace := trace s ++ [CallDescribeImages (Aws.findAMI_input name)] |})
  | (inr out, w) =>
      (images <- Aws.findAMI_range parse (Images out) [] ;;
       latest <- index (sort_Slice Aws.findAMI_less images) 0 ;;
       Ret (ami_ID latest),
       {| world := w;
          trace := trace s ++ [CallDescribeImages (Aws.findAMI_input name)] |})
  end.
Proof.
  unfold Aws.findAMI, request. cbn -[Aws.findAMI_range sort_Slice].
  destruct (DescribeImages _ _ _) as [[e|out] w];
    cbn -[Aws.findAMI_range sort_Slice]; [reflexivity|].
  destruct (Aws.findAMI_range parse (Images out) []) as [found|e|q];
    cbn -[sort_Slice]; try reflexivity.
  destruct (index (sort_Slice Aws.findAMI_less found) 0); reflexivity.
Qed.

(** The loop has no error of its own: a date that does not parse ends it
    without a trace. *)
Lemma findAMI_range_no_error (parse : string -> option Time)
    (rest : list Image) (images : list ami) (e : error) :
  Aws.findAMI_range parse rest images <> Err e.
Proof.
  revert images. induction rest as [|image rest IH]; intros images; simpl.
  - discriminate.
  - destruct (CreationDate image) as [value|]; simpl; [|discriminate].
    destruct (parse value); [|discriminate].
    destruct (ImageId image); simpl; [apply IH|discriminate].
Qed.

(** Once the loop has collected candidates, [findAMI] returns one that no
    other candidate is after. *)
Lemma findAMI_of_candidates
    {W : Type} `{SliceSorter} (parse : string -> option Time)
    (p : AWSProvisioner W) (name : string) (s : St W)
    (out : DescribeImagesOutput) (w : W) (amis : list ami) :
  DescribeImages (client p) (Aws.findAMI_input name) (world s) = (inr out, w) ->
  Aws.findAMI_range parse (Images out) [] = Ret amis ->
  amis <> [] ->
  exists top,
    List.In top amis /\
    (forall a, List.In a amis -> ami_CreationDate a <= ami_CreationDate top) /\
    Aws.findAMI parse p name s =
      (Ret (ami_ID top),
       {| world := w;
          trace := trace s ++ [CallDescribeImages (Aws.findAMI_input name)] |}).
Proof.
  intros Hanswer Hrange Hne.
  destruct (sort_Slice_head Aws.findAMI_less amis findAMI_less_strict_weak_order Hne)
    as (top & rest & Hsort & Htop & Hmax).
  exists top. split; [exact Htop|]. split.
  - intros a Ha. specialize (Hmax a Ha). unfold Aws.findAMI_less, After in Hmax. lia.
  - rewrite findAMI_run, Hanswer, Hrange. cbn -[sort_Slice]. now rewrite Hsort.
Qed.

(** X5. [findAMI] reads the listing up to the first image whose creation
    date does not parse.  When the images before it are not none and each
    carries its identifier and a date that parses, it returns the identifier
    of one of them whose creation time none of them exceeds, whatever comes
    after the unparsable one. *)
Theorem findAMI_latest_before_unparsable
    {W : Type} `{SliceSorter} (parse : string -> option Time)
    (p : AWSProvisioner W) (name : string) (s : St W) (w : W)
    (before later : list Image) (bad : Image) (junk : string) :
  DescribeImages (client p) (Aws.findAMI_input name) (world s)
    = (inr {| Images := before ++ bad :: later |}, w) ->
  before <> [] ->
  List.Forall
    (fun image =>
       exists id value t,
         ImageId image = Some id /\ CreationDate image = Some value /\
         parse value = Some t) before ->
  CreationDate bad = Some junk ->
  parse junk = None ->
  exists image id value t,
    List.In image before /\
    ImageId image = Some id /\
    CreationDate image = Some value /\
    parse value = Some t /\
    (forall image' value' t',
        List.In image' before -> CreationDate image' = Some value' ->
        parse value' = Some t' -> t' <= t) /\
    Aws.findAMI parse p name s =
      (Ret id,
       {| world := w;
          trace := trace s ++ [CallDescribeImages (Aws.findAMI_input name)] |}).
Proof.
  intros Hanswer Hne Hall Hbad Hjunk.
  assert (Hall' : List.Forall (fun image => exists a, read_as parse image a) before).
  { eapply List.Forall_impl; [|exact Hall].
    intros image (id & value & t & Hid & Hdate & Hparse).
    exists {| ami_ID := id; ami_CreationDate := t |}. split; [exact Hid|].
    now exists value. }
  destruct (findAMI_range_all parse before Hall' []) as (amis & Hrun & Hread).
  simpl in Hrun.
  assert (Hamis : amis <> []).
  { intros ->. inversion Hread. congruence. }
  assert (Hrange : Aws.findAMI_range parse (Images {| Images := before ++ bad :: later |}) []
                   = Ret amis).
  { cbn [Images]. now rewrite (findAMI_range_break parse before later bad junk [] Hbad Hjunk). }
  destruct (findAMI_of_candidates parse p name s _ w amis Hanswer Hrange Hamis)
    as (top & Htop & Hmax & Hfind).
  destruct (Forall2_In_r _ _ _ _ Hread Htop)
    as (image & Himage & Hid & value & Hdate & Hparse).
  exists image, (ami_ID top), value, (ami_CreationDate top).
  repeat split; try assumption.
  intros image' value' t' Hin' Hdate' Hparse'.
  destruct (Forall2_In_l _ _ _ _ Hread Hin')
    as (a' & Ha' & _ & value'' & Hdate'' & Hparse'').
  assert (t' = ami_CreationDate a') by congruence. subst t'.
  now apply Hmax.
Qed.

Lemma findAMI_latest_before_unparsable_witness :
  exists image id value t,
    List.In image
      [ Fixture.image "img-1" "2023-01-01T00:00:00Z";
        Fixture.image "img-2" "2023-02-01T00:00:00Z" ] /\
    ImageId image = Some id /\
    CreationDate image = Some value /\
    Fixture.parse_utc value = Some t /\
    (forall image' value' t',
        List.In image'
          [ Fixture.image "img-1" "2023-01-01T00:00:00Z";
            Fixture.image "img-2" "2023-02-01T00:00:00Z" ] ->
        CreationDate image' = Some value' ->
        Fixture.parse_utc value' = Some t' -> t' <= t) /\
    Aws.findAMI Fixture.parse_utc
      (Fixture.scripted
         (Fixture.with_images
            ([ Fixture.image "img-1" "2023-01-01T00:00:00Z";
               Fixture.image "img-2" "2023-02-01T00:00:00Z" ]
             ++ Fixture.image "img-3" "yesterday"
             :: [ Fixture.image "img-4" "2023-03-01T00:00:00Z" ])))
      "debian" Fixture.start =
      (Ret id,
       {| world := tt;
          trace := trace Fixture.start
                   ++ [CallDescribeImages (Aws.findAMI_input "debian")] |}).
Proof.
  apply (findAMI_latest_before_unparsable Fixture.parse_utc
           (Fixture.scripted
              (Fixture.with_images
                 ([ Fixture.image "img-1" "2023-01-01T00:00:00Z";
                    Fixture.image "img-2" "2023-02-01T00:00:00Z" ]
                  ++ Fixture.image "img-3" "yesterday"
                  :: [ Fixture.image "img-4" "2023-03-01T00:00:00Z" ])))
           "debian" Fixture.start tt
           [ Fixture.image "img-1" "2023-01-01T00:00:00Z";
             Fixture.image "img-2" "2023-02-01T00:00:00Z" ]
           [ Fixture.image "img-4" "2023-03-01T00:00:00Z" ]
           (Fixture.image "img-3" "yesterday") "yesterday").
  - reflexivity.
  - discriminate.
  - repeat constructor.
    + exists "img-1", "2023-01-01T00:00:00Z", 1672531200. repeat split; reflexivity.
    + exists "img-2", "2023-02-01T00:00:00Z", 1675209600. repeat split; reflexivity.
  - reflexivity.
  - reflexivity.
Defined.

(** X6. When every image of the listing carries its identifier and a date
    that parses, and one identifier is strictly newer than every image with
    another identifier, [findAMI] returns that identifier: the order of the
    listing and the sorting algorithm have no say. *)
Theorem findAMI_unique_latest
    {W : Type} `{SliceSorter} (parse : string -> option Time)
    (p : AWSProvisioner W) (name : string) (s : St W) (w : W)
    (listing : list Image) (latest : Image) (id value : string) (t : Time) :
  DescribeImages (client p) (Aws.findAMI_input name) (world s)
    = (inr {| Images := listing |}, w) ->
  List.Forall
    (fun image =>
       exists id' value' t',
         ImageId image = Some id' /\ CreationDate image = Some value' /\
         parse value' = Some t') listing ->
  List.In latest listing ->
  ImageId latest = Some id ->
  CreationDate latest = Some value ->
  parse value = Some t ->
  (forall image' id' value' t',
      List.In image' listing -> ImageId image' = Some id' ->
      CreationDate image' = Some value' -> parse value' = Some t' ->
      id' <> id -> t' < t) ->
  Aws.findAMI parse p name s =
    (Ret id,
     {| world := w;
        trace := trace s ++ [CallDescribeImages (Aws.findAMI_input name)] |}).
Proof.
  intros Hanswer Hall Hin Hid Hdate Hparse Hnewer.
  assert (Hall' : List.Forall (fun image => exists a, read_as parse image a) listing).
  { eapply List.Forall_impl; [|exact Hall].
    intros image (id' & value' & t' & Hid' & Hdate' & Hparse').
    exists {| ami_ID := id'; ami_CreationDate := t' |}. split; [exact Hid'|].
    now exists value'. }
  destruct (findAMI_range_all parse listing Hall' []) as (amis & Hrun & Hread).
  simpl in Hrun.
  destruct (Forall2_In_l _ _ _ _ Hread Hin)
    as (a & Ha & Ha_id & value0 & Hdate0 & Hparse0).
  assert (Hamis : amis <> []) by (intros ->; destruct Ha).
  destruct (findAMI_of_candidates parse p name s {| Images := listing |} w amis
              Hanswer Hrun Hamis) as (top & Htop & Hmax & Hfind).
  rewrite Hfind. f_equal. f_equal.
  destruct (Forall2_In_r _ _ _ _ Hread Htop)
    as (image' & Hin' & Hid' & value' & Hdate' & Hparse').
  destruct (string_dec (ami_ID top) id) as [Heq|Hneq]; [exact Heq|exfalso].
  specialize (Hnewer image' (ami_ID top) value' (ami_CreationDate top)
                Hin' Hid' Hdate' Hparse' Hneq).
  specialize (Hmax a Ha).
  assert (ami_CreationDate a = t) by congruence. lia.
Qed.

Lemma findAMI_unique_latest_witness :
  Aws.findAMI Fixture.parse_utc
    (Fixture.scripted
       (Fixture.with_images
          [ Fixture.image "img-2" "2023-03-01T00:00:00Z";
            Fixture.image "img-1" "2023-01-01T00:00:00Z";
            Fixture.image "img-2" "2023-03-01T00:00:00Z" ]))
    "debian" Fixture.start =
    (Ret "img-2",
     {| world := tt;
        trace := trace Fixture.start
                 ++ [CallDescribeImages (Aws.findAMI_input "debian")] |}).
Proof.
  apply (findAMI_unique_latest Fixture.parse_utc
           (Fixture.scripted
              (Fixture.with_images
                 [ Fixture.image "img-2" "2023-03-01T00:00:00Z";
                   Fixture.image "img-1" "2023-01-01T00:00:00Z";
                   Fixture.image "img-2" "2023-03-01T00:00:00Z" ]))
           "debian" Fixture.start tt
           [ Fixture.image "img-2" "2023-03-01T00:00:00Z";
             Fixture.image "img-1" "2023-01-01T00:00:00Z";
             Fixture.image "img-2" "2023-03-01T00:00:00Z" ]
           (Fixture.image "img-2" "2023-03-01T00:00:00Z")
           "img-2" "2023-03-01T00:00:00Z" 1677628800).
  - reflexivity.
  - repeat constructor.
    + exists "img-2", "2023-03-01T00:00:00Z", 1677628800. repeat split; reflexivity.
    + exists "img-1", "2023-01-01T00:00:00Z", 1672531200. repeat split; reflexivity.
    + exists "img-2", "2023-03-01T00:00:00Z", 1677628800. repeat split; reflexivity.
  - left. reflexivity.
  - reflexivity.
  - reflexivity.
  - reflexivity.
  - intros image' id' value' t' Hin Hid Hdate Hparse Hneq.
    destruct Hin as [<-|[<-|[<-|[]]]]; simpl in Hid, Hdate;
      injection Hid as <-; injection Hdate as <-;
      try (exfalso; apply Hneq; reflexivity).
    vm_compute in Hparse. injection Hparse as <-. reflexivity.
Defined.

(** X7. An error from [findAMI] is the error the image query came back
    with: a creation date that does not parse is never reported, and an
    empty result is not an error value either. *)
Theorem findAMI_errors_only_from_service
    {W : Type} `{SliceSorter} (parse : string -> option Time)
    (p : AWSProvisioner W) (name : string) (s s' : St W) (e : error) :
  Aws.findAMI parse p name s = (Err e, s') ->
  DescribeImages (client p) (Aws.findAMI_input name) (world s) = (inl e, world s') /\
  trace s' = trace s ++ [CallDescribeImages (Aws.findAMI_input name)].
Proof.
  rewrite findAMI_run.
  destruct (DescribeImages _ _ _) as [[e0|out] w]; [now intros [= <- <-]|].
  pose proof (findAMI_range_no_error parse (Images out) []) as Hloop.
  destruct (Aws.findAMI_range parse (Images out) []) as [found|e0|q];
    cbn -[sort_Slice]; [|now destruct (Hloop e0)|discriminate].
  unfold index. destruct (nth_error _ 0); discriminate.
Qed.

Lemma findAMI_errors_only_from_service_witness :
  DescribeImages (client (Fixture.scripted Fixture.refusing))
    (Aws.findAMI_input "debian") (world Fixture.start)
  = (inl (AwsError "RequestError"), tt) /\
  trace {| world := tt; trace := [CallDescribeImages (Aws.findAMI_input "debian")] |}
  = trace Fixture.start ++ [CallDescribeImages (Aws.findAMI_input "debian")].
Proof.
  apply (findAMI_errors_only_from_service Fixture.parse_utc
           (Fixture.scripted Fixture.refusing) "debian" Fixture.start
           {| world := tt; trace := [CallDescribeImages (Aws.findAMI_input "debian")] |}
           (AwsError "RequestError")).
  reflexivity.
Defined.

(** ** Status and Delete *)

(** X8. When the service describes the instance, [Status] reports the first
    instance of the first reservation and nothing of the rest: the
    identifier the service gave (not the one asked for), the public address
    or the empty string when there is none yet, and the state name with
    "running" replaced by [ActiveStatus].  One request is sent. *)
Theorem Status_reports_first_instance
    {W : Type} (ActiveStatus : string) (p : AWSProvisioner W)
    (id : string) (s : St W) (w : W)
    (instanceID state : string) (address : option string)
    (others : list Instance) (rest : list Reservation) :
  DescribeInstances (client p) {| InstanceIds := [id] |} (world s) =
    (inr {| Reservations :=
              {| Instances :=
                   {| InstanceId := Some instanceID;
                      PublicIpAddress := address;
                      State := Some {| StateName := Some state |} |} :: others |}
              :: rest |}, w) ->
  Aws.Status ActiveStatus p id s =
    (Ret {| ID := instanceID;
            IP := match address with Some a => a | None => "" end;
            Status := if String.eqb state "running" then ActiveStatus else state |},
     {| world := w;
        trace := trace s ++ [CallDescribeInstances {| InstanceIds := [id] |}] |}).
Proof.
  intros Hanswer.
  unfold Aws.Status, request. simpl. rewrite Hanswer. reflexivity.
Qed.

Lemma Status_reports_first_instance_witness :
  Aws.Status "active" (Fixture.scripted Fixture.accepting) "i-0001" Fixture.start =
    (Ret {| ID := "i-0001"; IP := ""; Status := "active" |},
     {| world := tt;
        trace := trace Fixture.start
                 ++ [CallDescribeInstances {| InstanceIds := ["i-0001"] |}] |}).
Proof.
  apply (Status_reports_first_instance "active" (Fixture.scripted Fixture.accepting)
           "i-0001" Fixture.start tt "i-0001" "running" None [] []).
  reflexivity.
Defined.

(** X9. [Delete] sends one termination request, naming the given instance
    and no other, and gives back the answer of the service as it is: nil
    when the service accepted, the same error when it did not.  It has no
    panic and no second request. *)
Theorem Delete_returns_service_answer
    {W : Type} (p : AWSProvisioner W) (id : string) (s : St W) :
  exists answer w,
    TerminateInstances (client p) {| TerminateIds := [id] |} (world s) = (answer, w) /\
    snd (Aws.Delete p id s) =
      {| world := w;
         trace := trace s ++ [CallTerminateInstances {| TerminateIds := [id] |}] |} /\
    (forall e, answer = inl e <-> fst (Aws.Delete p id s) = Err e) /\
    (is_inr answer = true <-> fst (Aws.Delete p id s) = Ret tt) /\
    (forall q, fst (Aws.Delete p id s) <> Panic q).
Proof.
  unfold Aws.Delete, request. simpl.
  destruct (TerminateInstances _ _ _) as [[e|[]] w]; simpl;
    eexists _, w; (split; [reflexivity|]); (split; [reflexivity|]).
  - split; [|split].
    + intros e'. split; congruence.
    + split; discriminate.
    + discriminate.
  - split; [|split].
    + intros e'. split; discriminate.
    + split; reflexivity.
    + discriminate.
Qed.

(** X10. [Status] and [Delete] of the earlier revision build their input in
    a variable first and are otherwise the same: on every identifier, from
    every state of every service, they end as those of aws.go do. *)
Theorem Status_and_Delete_revisions_agree
    {W : Type} (ActiveStatus : string) (p : AWSProvisioner W) (id : string) (s : St W) :
  Part000.Status ActiveStatus p id s = Aws.Status ActiveStatus p id s /\
  Part000.Delete p id s = Aws.Delete p id s.
Proof.
  split.
  - unfold Part000.Status, Aws.Status, request. simpl.
    destruct (DescribeInstances _ _ _) as [[e|out] w]; simpl; [reflexivity|].
    destruct (index (Reservations out) 0) as [result|e|q]; simpl; reflexivity.
  - unfold Part000.Delete, Aws.Delete, request. simpl.
    destruct (TerminateInstances _ _ _) as [[e|[]] w]; reflexivity.
Qed.

(** ** Provision in the earlier revision *)




(** ** The port, as strconv.ParseInt reads it *)

(** A value the digit loop accepts is made of digits and fits 64 bits. *)
Lemma ParseUint_loop_accepts (s : string) (n un : Z) :
  0 <= n <= maxUint64 ->
  ParseUint_loop s n = inr un ->
  0 <= un <= maxUint64 /\
  List.Forall (fun c => is_digit c = true) (list_ascii_of_string s).
Proof.
  revert n. induction s as [|c rest IH]; intros n Hn; simpl.
  - intros [= <-]. split; [exact Hn|constructor].
  - destruct (is_digit c) eqn:Hdigit; [|discriminate].
    destruct (maxUint64 / 10 + 1 <=? n); [discriminate|].
    destruct (_ || _) eqn:Hover; [discriminate|].
    intros Hloop. apply orb_false_iff in Hover. destruct Hover as [Hlow Hhigh].
    apply IH in Hloop.
    + destruct Hloop as [Hun Hrest]. split; [exact Hun|now constructor].
    + apply Z.ltb_ge in Hhigh.
      pose proof (Z.mod_pos_bound (n * 10 + (Z.of_N (N_of_ascii c) - 48)) (2 ^ 64)
                    ltac:(lia)). lia.
Qed.

(** X12. What strconv.ParseInt(value, 10, 64) accepts, and so what
    [Provision] takes for a port, is a signed 64-bit number written as
    decimal digits after at most one sign: no blank, no other base, no
    empty string. *)
Theorem ParseInt_accepts_signed_decimal (value : string) (n : Z) :
  ParseInt value = inr n ->
  - 2 ^ 63 <= n <= 2 ^ 63 - 1 /\
  exists digits,
    all_digits digits /\
    (value = digits \/ value = "+" +:+ digits \/ value = "-" +:+ digits).
Proof.
  unfold ParseInt. destruct value as [|c rest]; [discriminate|].
  set (neg := Ascii.eqb c "-").
  set (digits := if (Ascii.eqb c "+" || neg)%bool then rest else String c rest).
  destruct (ParseUint digits) as [[|]|un] eqn:Hun; try discriminate.
  assert (Hdigits : 0 <= un <= maxUint64 /\ all_digits digits).
  { unfold ParseUint in Hun. destruct digits as [|d more] eqn:E; [discriminate|].
    apply ParseUint_loop_accepts in Hun; [|unfold maxUint64; lia].
    destruct Hun as [Hrange Hall]. split; [exact Hrange|]. split; [discriminate|exact Hall]. }
  destruct Hdigits as [Hrange Hall].
  destruct (negb neg && (2 ^ 63 <=? un))%bool eqn:Hpos; [discriminate|].
  destruct (neg && (2 ^ 63 <? un))%bool eqn:Hneg; [discriminate|].
  intros [= <-]. split.
  - destruct neg; simpl in Hpos, Hneg; lia.
  - exists digits. split; [exact Hall|].
    subst digits neg.
    destruct (Ascii.eqb_spec c "+") as [->|Hplus]; [right; left; reflexivity|].
    destruct (Ascii.eqb_spec c "-") as [->|Hminus]; [right; right; reflexivity|].
    left. reflexivity.
Qed.

Lemma ParseInt_accepts_signed_decimal_witness :
  - 2 ^ 63 <= -8080 <= 2 ^ 63 - 1 /\
  exists digits,
    all_digits digits /\
    ("-8080" = digits \/ "-8080" = "+" +:+ digits \/ "-8080" = "-" +:+ digits).
Proof.
  apply (ParseInt_accepts_signed_decimal "-8080" (-8080)). reflexivity.
Defined.

(** ** Status normalisation, seen from the caller *)

(** X13. Two state names of the provider are reported as the same status
    only when they are the same name, or when one is "running" and the other
    is spelled like [ActiveStatus]: no other two states are merged. *)
Theorem canonicalStatus_merges_only_running (ActiveStatus state state' : string) :
  Aws.canonicalStatus ActiveStatus state = Aws.canonicalStatus ActiveStatus state' ->
  state = state' \/
  (state = "running" /\ state' = ActiveStatus) \/
  (state = ActiveStatus /\ state' = "running").
Proof.
  unfold Aws.canonicalStatus.
  destruct (String.eqb_spec state "running") as [->|Hstate];
    destruct (String.eqb_spec state' "running") as [->|Hstate']; intros Heq; auto.
Qed.

Lemma canonicalStatus_merges_only_running_witness :
  "running" = "active" \/
  ("running" = "running" /\ "active" = "active") \/
  ("running" = "active" /\ "active" = "running").
Proof.
  apply (canonicalStatus_merges_only_running "active" "running" "active").
  reflexivity.
Defined.
